(** * create-fred: provider registry, model fetcher and template generator

    A shallow embedding of [src/utils.ts], [src/model-fetcher.ts] and the
    generator ([processTemplate] to [generateProject], which follows the
    model fetcher in the sources), and the properties of the specification
    checked against it.

    Conventions of the embedding.
    - A JavaScript string is a [string]: a sequence of code units.  The
      identifiers, file names and placeholders of the program are ASCII;
      case mapping is modelled on the ASCII letters and leaves every other
      code unit unchanged.
    - A thrown exception is a [Throw] completion carrying the message of
      the [Error] object; [try]/[catch] is [try_catch].
    - The network and the file system are explicit arguments. *)

From Stdlib Require Import String Ascii List NArith Bool DecimalString.
From Stdlib Require Import Sorting.Sorted Sorting.Permutation.
From stdpp Require Import gmap strings.

Import ListNotations.
Local Open Scope string_scope.
Local Open Scope list_scope.

(* ===================================================================== *)
(** ** JavaScript strings *)
(* ===================================================================== *)

Module JS.

Definition is_upper (c : ascii) : bool :=
  let n := N_of_ascii c in (65 <=? n)%N && (n <=? 90)%N.

Definition is_lower (c : ascii) : bool :=
  let n := N_of_ascii c in (97 <=? n)%N && (n <=? 122)%N.

Definition lower_unit (c : ascii) : ascii :=
  if is_upper c then ascii_of_N (N_of_ascii c + 32) else c.

Definition upper_unit (c : ascii) : ascii :=
  if is_lower c then ascii_of_N (N_of_ascii c - 32) else c.

Fixpoint map_units (f : ascii -> ascii) (s : string) : string :=
  match s with
  | EmptyString => EmptyString
  | String c r => String (f c) (map_units f r)
  end.

(** [String.prototype.toLowerCase] and [toUpperCase]. *)
Definition toLowerCase : string -> string := map_units lower_unit.
Definition toUpperCase : string -> string := map_units upper_unit.

(** [p] is an initial segment of [s]. *)
Fixpoint prefix (p s : string) : bool :=
  match p, s with
  | EmptyString, _ => true
  | String a p', String b s' => Ascii.eqb a b && prefix p' s'
  | String _ _, EmptyString => false
  end.

(** [s.startsWith(p)]. *)
Definition startsWith (s p : string) : bool := prefix p s.

(** [s.includes(p)]: [p] occurs somewhere in [s]. *)
Fixpoint includes (s p : string) : bool :=
  prefix p s ||
  match s with
  | EmptyString => false
  | String _ r => includes r p
  end.

(** [s] without its first [n] code units. *)
Fixpoint drop (n : nat) (s : string) : string :=
  match n, s with
  | O, _ => s
  | S _, EmptyString => EmptyString
  | S k, String _ r => drop k r
  end.

(** [s.replace(p, r)] with a string pattern and a replacement without
    [$]: only the first occurrence is replaced. *)
Fixpoint replace_first (s p r : string) : string :=
  if prefix p s then r +:+ drop (String.length p) s
  else match s with
       | EmptyString => EmptyString
       | String c t => String c (replace_first t p r)
       end.

(** The line feed, [\n]. *)
Definition nl : string := String (ascii_of_nat 10) EmptyString.

(** The message of a thrown [Error]. *)
Record error : Type := Err { message : string }.

(** The completion of an evaluation: a value, or a thrown error. *)
Inductive completion (A : Type) : Type :=
| Normal (a : A)
| Throw (e : error).
Arguments Normal {A} a.
Arguments Throw {A} e.

Definition bind {A B} (m : completion A) (k : A -> completion B) : completion B :=
  match m with
  | Normal a => k a
  | Throw e => Throw e
  end.

(** [try { body } catch (error) { handler(error) }]. *)
Definition try_catch {A} (body : completion A) (handler : error -> completion A)
  : completion A :=
  match body with
  | Normal a => Normal a
  | Throw e => handler e
  end.

(** A [TypeError]; the wording of its message is the engine's. *)
Definition TypeError {A} (what : string) : completion A :=
  Throw (Err ("TypeError: " +:+ what)).

(** [l.map(f)] and [l.filter(f)] for a callback that may throw: the
    elements are visited in order and the first throw ends the call. *)
Fixpoint mapM {A B} (f : A -> completion B) (l : list A) : completion (list B) :=
  match l with
  | [] => Normal []
  | x :: r => bind (f x) (fun y => bind (mapM f r) (fun ys => Normal (y :: ys)))
  end.

Fixpoint filterM {A} (f : A -> completion bool) (l : list A) : completion (list A) :=
  match l with
  | [] => Normal []
  | x :: r =>
      bind (f x) (fun keep =>
      bind (filterM f r) (fun ys => Normal (if keep : bool then x :: ys else ys)))
  end.

End JS.

#[global] Instance completion_bind : MBind JS.completion :=
  fun A B k m => JS.bind m k.

(* ===================================================================== *)
(** ** src/utils.ts: the provider registry *)
(* ===================================================================== *)

Module Utils.
Import JS.

(** What a property read on one of the registry's object literals can
    produce.  An object literal inherits from [Object.prototype], so the
    probe [map[key]] finds, besides the literal's own properties, the
    inherited ones.  The key is always the result of [toLowerCase()], and
    of the properties of [Object.prototype] only [constructor] and
    [__proto__] have a name without an upper-case letter ([toString],
    [valueOf], [hasOwnProperty], ... cannot be named). *)
Inductive value : Type :=
| VStr (s : string)   (* a string *)
| VObjectCtor         (* the function [Object], from [constructor] *)
| VObjectProto        (* the object [Object.prototype], from [__proto__] *)
| VUndefined.

Coercion VStr : string >-> value.

Definition obj := list (string * string).

Fixpoint own (o : obj) (k : string) : option string :=
  match o with
  | [] => None
  | (k', v) :: r => if String.eqb k' k then Some v else own r k
  end.

Definition inherited (k : string) : value :=
  if String.eqb k "constructor" then VObjectCtor
  else if String.eqb k "__proto__" then VObjectProto
  else VUndefined.

(** [o[k]] for a lower-cased key [k]. *)
Definition get (o : obj) (k : string) : value :=
  match own o k with
  | Some v => VStr v
  | None => inherited k
  end.

(** [a || b]: [a] when it is truthy. *)
Definition js_or (a b : value) : value :=
  match a with
  | VStr EmptyString | VUndefined => b
  | _ => a
  end.

Definition providerMap : obj :=
  [ ("openai", "@ai-sdk/openai");
    ("groq", "@ai-sdk/groq");
    ("anthropic", "@ai-sdk/anthropic");
    ("google", "@ai-sdk/google");
    ("mistral", "@ai-sdk/mistral");
    ("cohere", "@ai-sdk/cohere");
    ("vercel", "@ai-sdk/vercel");
    ("azure-openai", "@ai-sdk/azure-openai");
    ("azure-anthropic", "@ai-sdk/azure-anthropic");
    ("azure", "@ai-sdk/azure-openai");
    ("fireworks", "@ai-sdk/fireworks");
    ("xai", "@ai-sdk/xai");
    ("ollama", "@ai-sdk/ollama");
    ("ai21", "@ai-sdk/ai21");
    ("nvidia", "@ai-sdk/nvidia");
    ("bedrock", "@ai-sdk/amazon-bedrock");
    ("amazon-bedrock", "@ai-sdk/amazon-bedrock");
    ("cloudflare", "@ai-sdk/cloudflare");
    ("elevenlabs", "@ai-sdk/elevenlabs");
    ("lepton", "@ai-sdk/lepton");
    ("perplexity", "@ai-sdk/perplexity");
    ("replicate", "@ai-sdk/replicate");
    ("together", "@ai-sdk/together");
    ("upstash", "@ai-sdk/upstash") ].

Definition envMap : obj :=
  [ ("openai", "OPENAI_API_KEY");
    ("groq", "GROQ_API_KEY");
    ("anthropic", "ANTHROPIC_API_KEY");
    ("google", "GOOGLE_API_KEY");
    ("mistral", "MISTRAL_API_KEY");
    ("cohere", "COHERE_API_KEY");
    ("vercel", "VERCEL_API_KEY");
    ("azure-openai", "AZURE_OPENAI_API_KEY");
    ("azure-anthropic", "AZURE_ANTHROPIC_API_KEY");
    ("azure", "AZURE_OPENAI_API_KEY");
    ("fireworks", "FIREWORKS_API_KEY");
    ("xai", "XAI_API_KEY");
    ("ollama", "OLLAMA_API_KEY");
    ("ai21", "AI21_API_KEY");
    ("nvidia", "NVIDIA_API_KEY");
    ("bedrock", "AWS_ACCESS_KEY_ID");
    ("amazon-bedrock", "AWS_ACCESS_KEY_ID");
    ("cloudflare", "CLOUDFLARE_API_KEY");
    ("elevenlabs", "ELEVENLABS_API_KEY");
    ("lepton", "LEPTON_API_KEY");
    ("perplexity", "PERPLEXITY_API_KEY");
    ("replicate", "REPLICATE_API_KEY");
    ("together", "TOGETHER_API_KEY");
    ("upstash", "UPSTASH_API_KEY") ].

Definition modelMap : obj :=
  [ ("openai", "gpt-4o-mini");
    ("groq", "llama-3.1-70b-versatile");
    ("anthropic", "claude-3-5-sonnet-20241022");
    ("google", "gemini-1.5-flash");
    ("mistral", "mistral-small-latest");
    ("cohere", "command-r");
    ("vercel", "claude-3-5-sonnet-20241022");
    ("azure-openai", "gpt-4o-mini");
    ("azure-anthropic", "claude-3-5-sonnet-20241022");
    ("azure", "gpt-4o-mini");
    ("fireworks", "llama-v3-70b-instruct");
    ("xai", "grok-beta");
    ("ollama", "llama3.2");
    ("ai21", "j2-ultra");
    ("nvidia", "meta/llama-3-70b-instruct");
    ("bedrock", "anthropic.claude-3-5-sonnet-20241022-v2:0");
    ("amazon-bedrock", "anthropic.claude-3-5-sonnet-20241022-v2:0");
    ("cloudflare", "llama-3-70b-instruct");
    ("elevenlabs", "eleven_turbo_v2_5");
    ("lepton", "llama-3-70b-instruct");
    ("perplexity", "llama-3.1-sonar-large-128k-online");
    ("replicate", "meta/llama-3-70b-instruct");
    ("together", "meta/llama-3-70b-instruct");
    ("upstash", "meta/llama-3-70b-instruct") ].

Definition getProviderPackageName (provider : string) : value :=
  js_or (get providerMap (toLowerCase provider))
        (VStr ("@ai-sdk/" +:+ toLowerCase provider)).

Definition getProviderEnvVar (provider : string) : value :=
  js_or (get envMap (toLowerCase provider))
        (VStr (toUpperCase provider +:+ "_API_KEY")).

Definition getDefaultModel (provider : string) : value :=
  js_or (get modelMap (toLowerCase provider)) (VStr "gpt-4o-mini").

(** The fixed supported set: the keys of the three maps. *)
Definition supported : list string := map fst providerMap.

(** An identifier is recognised when its lower-cased form is a key. *)
Definition recognised (x : string) : bool :=
  existsb (String.eqb (toLowerCase x)) supported.

End Utils.

(* ===================================================================== *)
(** ** src/model-fetcher.ts: one adapter per provider *)
(* ===================================================================== *)

Module ModelFetcher.
Import JS.

(** A JavaScript value as [response.json()] can produce it, and
    [undefined].  A number is carried by its [ToString] rendering, the
    only thing this module ever asks of a number. *)
#[warnings="-register-all"]
Inductive jsval : Type :=
| JUndefined
| JNull
| JBool (b : bool)
| JNum (repr : string)
| JStr (s : string)
| JArr (items : list jsval)
| JObj (props : list (string * jsval)).

(** [JSON.parse] keeps the last of several members with one name. *)
Fixpoint lookup_last (ps : list (string * jsval)) (k : string) : option jsval :=
  match ps with
  | [] => None
  | (k', v) :: r =>
      match lookup_last r k with
      | Some w => Some w
      | None => if String.eqb k' k then Some v else None
      end
  end.

(** The parsed object has an own member named [k]. *)
Definition has_own (ps : list (string * jsval)) (k : string) : bool :=
  existsb (fun p => String.eqb (fst p) k) ps.

(** [v.k] for the property names this module reads: [data], [models],
    [id] and [name].  None of them is defined on a built-in prototype, so
    the read yields the own property of an object and [undefined] on every
    other value; on [null] and [undefined] it throws. *)
Definition get_prop (v : jsval) (k : string) : completion jsval :=
  match v with
  | JUndefined | JNull => TypeError ("cannot read property " +:+ k)
  | JObj ps =>
      Normal (match lookup_last ps k with Some w => w | None => JUndefined end)
  | _ => Normal JUndefined
  end.

(** [v.filter(cb)], [v.map(cb)]: only an array has these methods; a
    parsed JSON value is never callable. *)
Definition call_filter (v : jsval) (cb : jsval -> completion bool)
  : completion (list jsval) :=
  match v with
  | JArr l => filterM cb l
  | _ => TypeError "filter is not a function"
  end.

Definition call_map (v : jsval) (cb : jsval -> completion jsval)
  : completion (list jsval) :=
  match v with
  | JArr l => mapM cb l
  | _ => TypeError "map is not a function"
  end.

(** [v.toLowerCase()]: a method of strings only. *)
Definition call_toLowerCase (v : jsval) : completion string :=
  match v with
  | JStr s => Normal (toLowerCase s)
  | _ => TypeError "toLowerCase is not a function"
  end.

(** [v.includes(needle)]: [String.prototype.includes] on a string,
    [Array.prototype.includes] on an array. *)
Definition call_includes (v : jsval) (needle : string) : completion bool :=
  match v with
  | JStr s => Normal (includes s needle)
  | JArr l =>
      Normal (existsb (fun x => match x with
                                | JStr s => String.eqb s needle
                                | _ => false
                                end) l)
  | _ => TypeError "includes is not a function"
  end.

(** [v.replace(p, r)] with string arguments. *)
Definition call_replace (v : jsval) (p r : string) : completion jsval :=
  match v with
  | JStr s => Normal (JStr (replace_first s p r))
  | _ => TypeError "replace is not a function"
  end.

(** [ToString].  An array joins its elements with commas, [null] and
    [undefined] elements as the empty string.  A parsed object is
    [[object Object]], unless it has an own member [toString]: that
    member is not callable, [valueOf] yields no primitive, and the
    conversion throws. *)
Fixpoint toStringV (v : jsval) : completion string :=
  match v with
  | JUndefined => Normal "undefined"
  | JNull => Normal "null"
  | JBool true => Normal "true"
  | JBool false => Normal "false"
  | JNum r => Normal r
  | JStr s => Normal s
  | JArr items =>
      (fix join (l : list jsval) : completion string :=
         match l with
         | [] => Normal ""
         | x :: r =>
             let elem := match x with
                         | JUndefined | JNull => Normal ""
                         | _ => toStringV x
                         end in
             match r with
             | [] => elem
             | _ :: _ => s ← elem; t ← join r; Normal (s +:+ "," +:+ t)
             end
         end) items
  | JObj ps =>
      if has_own ps "toString"
      then TypeError "cannot convert object to primitive value"
      else Normal "[object Object]"
  end.

Definition is_undefined (v : jsval) : bool :=
  match v with JUndefined => true | _ => false end.

(** Stable insertion by the string key, in code-unit order. *)
Fixpoint insert_by (k : string) (v : jsval) (l : list (string * jsval))
  : list (string * jsval) :=
  match l with
  | [] => [(k, v)]
  | (k', v') :: r =>
      if String.leb k k' then (k, v) :: l else (k', v') :: insert_by k v r
  end.

Fixpoint isort (l : list (string * jsval)) : list (string * jsval) :=
  match l with
  | [] => []
  | (k, v) :: r => insert_by k v (isort r)
  end.

(** [l.sort()] without a comparator: the [undefined] elements go last,
    the others are ordered by their [ToString], stably.  With fewer than
    two defined elements no comparison is made and nothing is converted. *)
Definition array_sort (l : list jsval) : completion (list jsval) :=
  let defined := List.filter (fun v => negb (is_undefined v)) l in
  let undefs := List.filter is_undefined l in
  if (List.length defined <? 2)%nat then Normal (defined ++ undefs)
  else keys ← mapM toStringV defined;
       Normal (List.map snd (isort (combine keys defined)) ++ undefs).

(** The answer of [fetch]: it rejects (network failure), or resolves to a
    response whose [json()] rejects (malformed body) or yields a value. *)
Record Response : Type := {
  ok : bool;
  status : N;
  statusText : string;
  json : completion jsval
}.

(** The transport: URL and [Authorization] header to the outcome. *)
Definition Transport : Type := string -> option string -> completion Response.

(** [`${response.status}`]: the status in decimal. *)
Definition show_status (n : N) : string := NilZero.string_of_uint (N.to_uint n).

(** [x?.chain]: [undefined] when [x] is [null] or [undefined]; and then
    [models || null], every array being truthy. *)
Definition optional (d : jsval) (chain : jsval -> completion (list jsval))
  : completion (option (list jsval)) :=
  match d with
  | JUndefined | JNull => Normal None
  | _ => l ← chain d; Normal (Some l)
  end.

(** The body shared by the adapters that call a listing endpoint. *)
Definition listing (label url : string) (authorization : option string)
    (field : string) (chain : jsval -> completion (list jsval))
    (net : Transport) : completion (option (list jsval)) :=
  try_catch
    (response ← net url authorization;
     if negb (ok response)
     then Throw (Err (label +:+ " API error: " +:+ show_status (status response)
                        +:+ " " +:+ statusText response))
     else data ← json response;
          d ← get_prop data field;
          optional d chain)
    (fun e => Throw (Err ("Failed to fetch " +:+ label +:+ " models: " +:+ message e))).

Definition bearer (apiKey : string) : option string := Some ("Bearer " +:+ apiKey).

Definition id_of (model : jsval) : completion jsval := get_prop model "id".

Definition without (needle : string) (id : jsval) : completion bool :=
  b ← call_includes id needle; Normal (negb b).

Definition openai_keep (model : jsval) : completion bool :=
  idv ← get_prop model "id";
  id ← call_toLowerCase idv;
  Normal (startsWith id "gpt-" && negb (includes id "instruct")
          && negb (includes id "vision") && negb (includes id "embedding")).

Definition fetchOpenAIModels (net : Transport) (apiKey : string) :=
  listing "OpenAI" "https://api.openai.com/v1/models" (bearer apiKey) "data"
    (fun d => kept ← call_filter d openai_keep;
              ids ← mapM id_of kept;
              array_sort ids) net.

Definition fetchGroqModels (net : Transport) (apiKey : string) :=
  listing "Groq" "https://api.groq.com/openai/v1/models" (bearer apiKey) "data"
    (fun d => ids ← call_map d id_of;
              kept ← filterM (without "embedding") ids;
              array_sort kept) net.

Definition anthropic_models : list jsval :=
  [ JStr "claude-3-5-sonnet-20241022";
    JStr "claude-3-opus-20240229";
    JStr "claude-3-sonnet-20240229";
    JStr "claude-3-haiku-20240307" ].

Definition fetchAnthropicModels (net : Transport) (apiKey : string)
  : completion (option (list jsval)) :=
  if negb (startsWith apiKey "sk-ant-")
  then Throw (Err "Invalid Anthropic API key format")
  else Normal (Some anthropic_models).

Definition google_keep (model : jsval) : completion bool :=
  namev ← get_prop model "name";
  name ← call_toLowerCase namev;
  Normal (includes name "gemini" && negb (includes name "embedding")).

Definition fetchGoogleModels (net : Transport) (apiKey : string) :=
  listing "Google"
    ("https://generativelanguage.googleapis.com/v1beta/models?key=" +:+ apiKey)
    None "models"
    (fun d => kept ← call_filter d google_keep;
              names ← mapM (fun model => namev ← get_prop model "name";
                                         call_replace namev "models/" "") kept;
              array_sort names) net.

Definition fetchMistralModels (net : Transport) (apiKey : string) :=
  listing "Mistral" "https://api.mistral.ai/v1/models" (bearer apiKey) "data"
    (fun d => ids ← call_map d id_of;
              kept ← filterM (without "embed") ids;
              array_sort kept) net.

Definition cohere_keep (model : jsval) : completion bool :=
  namev ← get_prop model "name";
  name ← call_toLowerCase namev;
  Normal (includes name "command" || includes name "chat").

Definition fetchCohereModels (net : Transport) (apiKey : string) :=
  listing "Cohere" "https://api.cohere.ai/v1/models" (bearer apiKey) "models"
    (fun d => kept ← call_filter d cohere_keep;
              names ← mapM (fun model => get_prop model "name") kept;
              array_sort names) net.

Definition fetchFireworksModels (net : Transport) (apiKey : string) :=
  listing "Fireworks" "https://api.fireworks.ai/inference/v1/models"
    (bearer apiKey) "data"
    (fun d => ids ← call_map d id_of;
              kept ← filterM (without "embed") ids;
              array_sort kept) net.

Definition fetchXaiModels (net : Transport) (apiKey : string) :=
  listing "xAI" "https://api.x.ai/v1/models" (bearer apiKey) "data"
    (fun d => ids ← call_map d id_of; array_sort ids) net.

Definition fetchPerplexityModels (net : Transport) (apiKey : string) :=
  listing "Perplexity" "https://api.perplexity.ai/models" (bearer apiKey) "data"
    (fun d => ids ← call_map d id_of; array_sort ids) net.

Definition Adapter : Type :=
  Transport -> string -> completion (option (list jsval)).

(** The [switch] on [provider.toLowerCase()]; [None] is its [default]. *)
Definition adapter_for (p : string) : option Adapter :=
  if String.eqb p "openai" then Some fetchOpenAIModels
  else if String.eqb p "groq" then Some fetchGroqModels
  else if String.eqb p "anthropic" then Some fetchAnthropicModels
  else if String.eqb p "google" then Some fetchGoogleModels
  else if String.eqb p "mistral" then Some fetchMistralModels
  else if String.eqb p "cohere" then Some fetchCohereModels
  else if String.eqb p "fireworks" then Some fetchFireworksModels
  else if String.eqb p "xai" then Some fetchXaiModels
  else if String.eqb p "perplexity" then Some fetchPerplexityModels
  else None.

(** [fetchModelsFromProvider]; [None] is [null].  The spinner only writes
    to the terminal and is left out. *)
Definition fetchModelsFromProvider (net : Transport) (provider apiKey : string)
  : completion (option (list jsval)) :=
  try_catch
    (match adapter_for (toLowerCase provider) with
     | None => Normal None
     | Some adapter =>
         models ← adapter net apiKey;
         match models with
         | Some l => if (0 <? List.length l)%nat then Normal (Some l) else Normal None
         | None => Normal None
         end
     end)
    (fun _ => Normal None).

End ModelFetcher.

(* ===================================================================== *)
(** ** src/generator.ts: template engine and project materializer *)
(* ===================================================================== *)

Module Generator.
Import JS Utils.

(** The text matched by [new RegExp(`\\{\\{${key}\\}\\}`, 'g')] for a key
    of letters, digits and underscores, as the seven keys of
    [TemplateVariables] are: the literal [{{key}}]. *)
Definition token (key : string) : string := "{{" +:+ key +:+ "}}".

(** [GetSubstitution] for a pattern without capture groups: in the
    replacement, [$$] is a dollar sign, [$&] the matched text, [$`] the
    text before the match and [$'] the text after it; every other
    character, a lone [$] included, stands for itself. *)
Fixpoint getSubstitution (matched pre post r : string) : string :=
  match r with
  | EmptyString => EmptyString
  | String c tl =>
      match tl with
      | String d tl' =>
          if Ascii.eqb c "$" then
            if Ascii.eqb d "$" then String "$" (getSubstitution matched pre post tl')
            else if Ascii.eqb d "&" then matched +:+ getSubstitution matched pre post tl'
            else if Ascii.eqb d "`" then pre +:+ getSubstitution matched pre post tl'
            else if Ascii.eqb d "'" then post +:+ getSubstitution matched pre post tl'
            else String c (getSubstitution matched pre post tl)
          else String c (getSubstitution matched pre post tl)
      | EmptyString => String c EmptyString
      end
  end.

(** What [replace] puts in place of one match.  A string goes through
    [GetSubstitution]; the function [Object] is called as a replacer and
    returns the match wrapped in a [String] object; any other value is
    converted with [ToString]. *)
Definition replacement (v : value) (matched pre post : string) : string :=
  match v with
  | VStr r => getSubstitution matched pre post r
  | VObjectCtor => matched
  | VObjectProto => "[object Object]"
  | VUndefined => "undefined"
  end.

(** One left-to-right pass over [s].  At a position that is not inside an
    earlier match, [find pre s] says whether a match starts here, and if
    so what replaces it and how many code units it covers ([pre] is the
    text already passed); otherwise the code unit is copied. *)
Fixpoint scan (find : string -> string -> option (string * nat))
    (skip : nat) (pre s : string) : string :=
  match s with
  | EmptyString => EmptyString
  | String c rest =>
      match skip with
      | S k => scan find k (pre +:+ String c EmptyString) rest
      | O =>
          match find pre s with
          | Some (out, n) =>
              out +:+ scan find (Nat.pred n) (pre +:+ String c EmptyString) rest
          | None => String c (scan find 0 (pre +:+ String c EmptyString) rest)
          end
      end
  end.

Definition find_token (key : string) (v : value) (pre s : string)
  : option (string * nat) :=
  let t := token key in
  if prefix t s
  then Some (replacement v t pre (drop (String.length t) s), String.length t)
  else None.

(** [processed.replace(regex, value)] with the global flag. *)
Definition replaceAll (key : string) (v : value) (s : string) : string :=
  scan (find_token key v) 0 EmptyString s.

(** The loop of [processTemplate] over [Object.entries(vars)]. *)
Definition processEntries (entries : list (string * value)) (content : string)
  : string :=
  fold_left (fun processed kv => replaceAll (fst kv) (snd kv) processed)
            entries content.

(** The declared type of the fields is [string]; the two fields that come
    from the registry hold whatever the registry returned. *)
Record TemplateVariables : Type := {
  PROJECT_NAME : value;
  PROVIDER : value;
  MODEL : value;
  PROVIDER_PACKAGE : value;
  ENV_VAR_NAME : value;
  API_KEY_PLACEHOLDER : value;
  FRED_VERSION : value
}.

(** [Object.entries(vars)]: the properties in the order of their creation. *)
Definition entries (vars : TemplateVariables) : list (string * value) :=
  [ ("PROJECT_NAME", PROJECT_NAME vars);
    ("PROVIDER", PROVIDER vars);
    ("MODEL", MODEL vars);
    ("PROVIDER_PACKAGE", PROVIDER_PACKAGE vars);
    ("ENV_VAR_NAME", ENV_VAR_NAME vars);
    ("API_KEY_PLACEHOLDER", API_KEY_PLACEHOLDER vars);
    ("FRED_VERSION", FRED_VERSION vars) ].

Definition processTemplate (content : string) (vars : TemplateVariables) : string :=
  processEntries (entries vars) content.

Record ProjectOptions : Type := {
  projectName : string;
  provider : string;
  model : string;
  apiKey : option string;
  includeExamples : bool;
  skipInstall : bool
}.

(** The test [options.apiKey ? ... : ...]: [undefined] and the empty
    string are falsy. *)
Definition credential (options : ProjectOptions) : option string :=
  match apiKey options with
  | Some (String c r) => Some (String c r)
  | _ => None
  end.

Definition getTemplateVariables (options : ProjectOptions) : TemplateVariables :=
  let providerPackage := getProviderPackageName (provider options) in
  let envVarName := getProviderEnvVar (provider options) in
  let apiKeyPlaceholder :=
    match credential options with
    | Some k => k
    | None => "your-api-key-here"
    end in
  {| PROJECT_NAME := VStr (projectName options);
     PROVIDER := VStr (provider options);
     MODEL := VStr (model options);
     PROVIDER_PACKAGE := providerPackage;
     ENV_VAR_NAME := envVarName;
     API_KEY_PLACEHOLDER := VStr apiKeyPlaceholder;
     FRED_VERSION := VStr "latest" |}.

(** A file tree: the content of each file, and the directories.  Paths
    are plain strings; [join] puts a separator between its arguments and
    does not normalise. *)
Record FS : Type := {
  files : gmap string string;
  dirs : gset string
}.

Definition join (a b : string) : string := a +:+ "/" +:+ b.

Fixpoint after_slash (l : list ascii) : option (list ascii) :=
  match l with
  | [] => None
  | c :: r => if Ascii.eqb c "/" then Some r else after_slash r
  end.

(** [dirname]: the path without its last component. *)
Definition dirname (p : string) : string :=
  match after_slash (rev (list_ascii_of_string p)) with
  | Some r => string_of_list_ascii (rev r)
  | None => "."
  end.

Definition existsSync (fs : FS) (p : string) : bool :=
  bool_decide (is_Some (files fs !! p)) || bool_decide (p ∈ dirs fs).

(** [mkdir(p, { recursive: true })] and [writeFile(p, content)] on the
    destination tree.  Failures of the operating system (permissions, a
    full disk) are outside the model. *)
Definition mkdir (p : string) (fs : FS) : FS :=
  {| files := files fs; dirs := {[ p ]} ∪ dirs fs |}.

Definition writeFile (p content : string) (fs : FS) : FS :=
  {| files := <[ p := content ]> (files fs); dirs := dirs fs |}.

(** The installed package: the directory of the running module
    ([import.meta.dir]) and the tree around it.  [generateProject] only
    reads it: every template path ends in [.template] and no destination
    path does, so the package tree is kept apart from the destination
    tree. *)
Record Package : Type := {
  module_dir : string;
  tree : FS
}.

Definition getTemplateDir (pkg : Package) : string :=
  let devPath := join (module_dir pkg) "templates" in
  let prodPath := join (join (module_dir pkg) "..") "templates" in
  if existsSync (tree pkg) devPath then devPath
  else if existsSync (tree pkg) prodPath then prodPath
  else join (module_dir pkg) "templates".

Definition TEMPLATE_DIR (pkg : Package) : string := getTemplateDir pkg.

Definition not_found (pkg : Package) (templatePath : string) : error :=
  Err ("Template file not found: " +:+ join (TEMPLATE_DIR pkg) templatePath).

Definition readTemplateFile (pkg : Package) (templatePath : string)
  : completion string :=
  let fullPath := join (TEMPLATE_DIR pkg) templatePath in
  if negb (existsSync (tree pkg) fullPath)
  then Throw (not_found pkg templatePath)
  else match files (tree pkg) !! fullPath with
       | Some content => Normal content
       | None => Throw (Err "EISDIR: illegal operation on a directory, read")
       end.

Definition writeFileToDest (destPath content : string) (fs : FS) : FS :=
  let dir := dirname destPath in
  let fs1 := if negb (existsSync fs dir) then mkdir dir fs else fs in
  writeFile destPath content fs1.

Definition copyTemplateFile (pkg : Package) (templatePath destPath : string)
    (vars : TemplateVariables) (fs : FS) : FS * completion unit :=
  match readTemplateFile pkg templatePath with
  | Throw e => (fs, Throw e)
  | Normal content =>
      let processed := processTemplate content vars in
      (writeFileToDest destPath processed fs, Normal tt)
  end.

Definition core_files : list (string * string) :=
  [ ("package.json.template", "package.json");
    ("tsconfig.json.template", "tsconfig.json");
    ("flox.nix.template", "flox.nix");
    (".env.example.template", ".env.example");
    (".gitignore.template", ".gitignore");
    ("README.md.template", "README.md");
    ("src/index.ts.template", "src/index.ts");
    ("src/dev-chat.ts.template", "src/dev-chat.ts");
    ("src/server.ts.template", "src/server.ts");
    ("src/config.json.template", "src/config.json") ].

Definition example_files : list (string * string) :=
  [ ("src/tools/example-tool.ts.template", "src/tools/example-tool.ts");
    ("src/agents/default-agent.ts.template", "src/agents/default-agent.ts");
    ("src/examples/basic.ts.template", "src/examples/basic.ts") ].

(** The array [files] after the conditional [push]. *)
Definition manifest (options : ProjectOptions) : list (string * string) :=
  core_files ++ (if includeExamples options then example_files else []).

(** The loop [for (const [templatePath, destFile] of files)]. *)
Fixpoint copy_all (pkg : Package) (destPath : string) (vars : TemplateVariables)
    (todo : list (string * string)) (fs : FS) : FS * completion unit :=
  match todo with
  | [] => (fs, Normal tt)
  | (templatePath, destFile) :: rest =>
      match copyTemplateFile pkg templatePath (join destPath destFile) vars fs with
      | (fs', Normal _) => copy_all pkg destPath vars rest fs'
      | (fs', Throw e) => (fs', Throw e)
      end
  end.

(** The template literal [`${v}`]. *)
Definition to_string (v : value) : string :=
  match v with
  | VStr s => s
  | VObjectCtor => "function Object() { [native code] }"
  | VObjectProto => "[object Object]"
  | VUndefined => "undefined"
  end.

Definition generateProject (pkg : Package) (destPath : string)
    (options : ProjectOptions) (fs : FS) : FS * completion unit :=
  let vars := getTemplateVariables options in
  let fs := mkdir destPath fs in
  let fs := mkdir (join destPath "src") fs in
  let fs := mkdir (join (join destPath "src") "tools") fs in
  let fs := mkdir (join (join destPath "src") "agents") fs in
  let fs := if includeExamples options
            then mkdir (join (join destPath "src") "examples") fs else fs in
  match copy_all pkg destPath vars (manifest options) fs with
  | (fs, Throw e) => (fs, Throw e)
  | (fs, Normal _) =>
      match credential options with
      | Some key =>
          let envContent := to_string (ENV_VAR_NAME vars) +:+ "=" +:+ key +:+ nl in
          (writeFileToDest (join destPath ".env") envContent fs, Normal tt)
      | None => (fs, Normal tt)
      end
  end.

End Generator.

(* ===================================================================== *)
(** ** src/utils.ts: the project name and the project path *)
(* ===================================================================== *)

Module ProjectName.
Import JS Generator.

(** White space for [trim()], among the code units below 256: tab, line
    feed, vertical tab, form feed, carriage return, space and the
    no-break space. *)
Definition is_space (c : ascii) : bool :=
  let n := N_of_ascii c in
  ((9 <=? n)%N && (n <=? 13)%N) || (n =? 32)%N || (n =? 160)%N.

Fixpoint trimStart (s : string) : string :=
  match s with
  | EmptyString => EmptyString
  | String c r => if is_space c then trimStart r else s
  end.

Fixpoint trimEnd (s : string) : string :=
  match s with
  | EmptyString => EmptyString
  | String c r =>
      match trimEnd r with
      | EmptyString => if is_space c then EmptyString else String c EmptyString
      | r' => String c r'
      end
  end.

(** [s.trim()]. *)
Definition trim (s : string) : string := trimEnd (trimStart s).

(** The character class of [invalidChars], by code: the control
    characters 0 to 31, and the less-than sign (60), the greater-than
    sign (62), the colon (58), the double quote (34), the slash (47), the
    backslash (92), the vertical bar (124), the question mark (63) and
    the asterisk (42). *)
Definition invalid_char (c : ascii) : bool :=
  let n := N_of_ascii c in
  (n <=? 31)%N
  || existsb (N.eqb n) [60; 62; 58; 34; 47; 92; 124; 63; 42]%N.

(** [invalidChars.test(name)]: some code unit is in the class. *)
Fixpoint has_invalid_char (s : string) : bool :=
  match s with
  | EmptyString => false
  | String c r => invalid_char c || has_invalid_char r
  end.

Definition reservedNames : list string :=
  [ "con"; "prn"; "aux"; "nul";
    "com1"; "com2"; "com3"; "com4"; "com5"; "com6"; "com7"; "com8"; "com9";
    "lpt1"; "lpt2"; "lpt3"; "lpt4"; "lpt5"; "lpt6"; "lpt7"; "lpt8"; "lpt9" ].

(** The object [{ valid, error? }]. *)
Record Validation : Type := {
  valid : bool;
  error : option string
}.

Definition validateProjectName (name : string) : Validation :=
  if String.eqb name EmptyString || (String.length (trim name) =? 0)%nat
  then {| valid := false; error := Some "Project name cannot be empty" |}
  else if has_invalid_char name
  then {| valid := false; error := Some "Project name contains invalid characters" |}
  else if existsb (String.eqb (toLowerCase name)) reservedNames
  then {| valid := false; error := Some "Project name is a reserved name" |}
  else {| valid := true; error := None |}.



End ProjectName.

(* ===================================================================== *)
(** ** src/index.ts: the command line *)
(* ===================================================================== *)

Module Cli.
Import JS Utils Generator ProjectName.









End Cli.

(* ===================================================================== *)
(** * Notions used in the statements *)
(* ===================================================================== *)

(** ** The provider registry *)

Module RegistrySpec.
Import JS Utils.

(** [f] gives one result for [id], its upper-cased and its lower-cased
    form. *)
Definition case_insensitive (f : string -> value) (id : string) : Prop :=
  f id = f (toUpperCase id) /\ f id = f (toLowerCase id).

(** The same as a test, for results that are strings. *)
Definition case_insensitiveb (f : string -> value) (id : string) : bool :=
  match f id, f (toUpperCase id), f (toLowerCase id) with
  | VStr a, VStr b, VStr c => String.eqb a b && String.eqb a c
  | _, _, _ => false
  end.

(** The properties of [Object.prototype] other than [constructor] and
    [__proto__]. *)
Definition other_prototype_names : list string :=
  [ "hasOwnProperty"; "isPrototypeOf"; "propertyIsEnumerable";
    "toLocaleString"; "toString"; "valueOf";
    "__defineGetter__"; "__defineSetter__";
    "__lookupGetter__"; "__lookupSetter__" ].

End RegistrySpec.

(** ** The model fetcher *)

Module FetcherSpec.
Import JS ModelFetcher.

(** The order of [sort()] without a comparator: [undefined] is the
    greatest element, any two other values compare as their [ToString]. *)
Definition default_leb (x y : jsval) : bool :=
  match y with
  | JUndefined => true
  | _ =>
      match x with
      | JUndefined => false
      | _ =>
          match toStringV x, toStringV y with
          | Normal s, Normal t => String.leb s t
          | _, _ => false
          end
      end
  end.

Definition default_le (x y : jsval) : Prop := default_leb x y = true.

(** The member [field] of a parsed body is missing: reading it throws or
    yields [undefined] or [null]. *)
Definition absent_field (body : jsval) (field : string) : bool :=
  match get_prop body field with
  | Throw _ | Normal JUndefined | Normal JNull => true
  | Normal _ => false
  end.

(** A body with neither of the members the adapters look for. *)
Definition lacks_listing (body : jsval) : bool :=
  absent_field body "data" && absent_field body "models".

(** A request that gives no listing: it is rejected, or answered with a
    non-success status, or with a body that cannot be parsed, or with a
    parsed body that lacks the listing. *)
Definition transport_failure (net : Transport) (url : string)
    (authorization : option string) : Prop :=
  (exists e, net url authorization = Throw e) \/
  (exists r, net url authorization = Normal r /\
             (ok r = false \/
              (exists e, json r = Throw e) \/
              (exists body, json r = Normal body /\ lacks_listing body = true))).

(** The order of the keys in [isort]. *)
Definition key_le (p q : string * jsval) : Prop := String.leb (fst p) (fst q) = true.

(** A pair of the sort: a defined value with its [ToString]. *)
Definition keyed (p : string * jsval) : Prop :=
  toStringV (snd p) = Normal (fst p) /\ is_undefined (snd p) = false.

(** A chain of calls that ends in [sort()]. *)
Definition ends_in_sort (chain : jsval -> completion (list jsval)) : Prop :=
  forall d l, chain d = Normal l -> exists l0, array_sort l0 = Normal l.

(** A transport on which every request is rejected. *)
Definition offline : Transport := fun _ _ => Throw (Err "fetch failed").

(** A transport that answers every request with one parsed body. *)
Definition answering (body : jsval) : Transport :=
  fun _ _ => Normal {| ok := true; status := 200; statusText := "OK";
                       json := Normal body |}.

(** One entry of a listing. *)
Definition entry (id : jsval) : jsval := JObj [("id", id); ("object", JStr "model")].

Definition openai_body : jsval :=
  JObj [("object", JStr "list");
        ("data", JArr [ entry (JStr "gpt-4o"); entry (JStr "text-embedding-3-small");
                        entry (JStr "gpt-4"); entry (JStr "gpt-3.5-turbo-instruct");
                        entry (JStr "gpt-3.5-turbo") ])].

End FetcherSpec.

(** ** The template engine *)

Module TemplateSpec.
Import JS Utils Generator.

(** A template as a sequence of literal code units and placeholder
    tokens [{{name}}]. *)
Inductive segment : Type :=
| Lit (c : ascii)
| Tok (name : string).

Fixpoint unparse (segs : list segment) : string :=
  match segs with
  | [] => EmptyString
  | Lit c :: r => String c (unparse r)
  | Tok n :: r => token n +:+ unparse r
  end.

Fixpoint brace_free (s : string) : bool :=
  match s with
  | EmptyString => true
  | String c r =>
      negb (Ascii.eqb c "{") && negb (Ascii.eqb c "}") && brace_free r
  end.

(** A value without braces and without dollar signs. *)
Fixpoint clean (s : string) : bool :=
  match s with
  | EmptyString => true
  | String c r =>
      negb (Ascii.eqb c "{") && negb (Ascii.eqb c "}")
      && negb (Ascii.eqb c "$") && clean r
  end.

Definition opens (segs : list segment) : bool :=
  match segs with
  | Lit c :: _ => Ascii.eqb c "{"
  | Tok _ :: _ => true
  | [] => false
  end.

(** A well-formed template: token names have no brace, and in the
    literal text an opening brace is never followed by an opening brace
    or by a token.  Every [{{] of the text then starts a token. *)
Fixpoint well_formed (segs : list segment) : bool :=
  match segs with
  | [] => true
  | Lit c :: r => negb (Ascii.eqb c "{" && opens r) && well_formed r
  | Tok n :: r => brace_free n && well_formed r
  end.

Fixpoint lookup (sv : list (string * string)) (k : string) : option string :=
  match sv with
  | [] => None
  | (k', v) :: r => if String.eqb k' k then Some v else lookup r k
  end.

(** The template with each token of a supplied variable replaced by the
    value, and everything else as it is. *)
Fixpoint render (look : string -> option string) (segs : list segment) : string :=
  match segs with
  | [] => EmptyString
  | Lit c :: r => String c (render look r)
  | Tok n :: r =>
      match look n with
      | Some v => v +:+ render look r
      | None => token n +:+ render look r
      end
  end.

(** The rendering that the specification describes, on the text itself:
    one pass in which each occurrence of a supplied placeholder is
    replaced by the value and every other code unit is copied. *)
Fixpoint find_spec (sv : list (string * string)) (pre s : string)
  : option (string * nat) :=
  match sv with
  | [] => None
  | (k, v) :: r =>
      if prefix (token k) s then Some (v, String.length (token k))
      else find_spec r pre s
  end.

Definition render_spec (sv : list (string * string)) (content : string) : string :=
  scan (find_spec sv) 0 EmptyString content.

Definition strings (es : list (string * value)) : list (string * string) :=
  List.map (fun kv => (fst kv, to_string (snd kv))) es.

Definition clean_value (v : value) : bool :=
  match v with
  | VStr s => clean s
  | _ => false
  end.

Definition clean_entries (es : list (string * value)) : bool :=
  forallb (fun kv => brace_free (fst kv) && clean_value (snd kv)) es.

Definition starts_open (s : string) : bool :=
  match s with
  | String c _ => Ascii.eqb c "{"
  | EmptyString => false
  end.

Fixpoint no_open (s : string) : bool :=
  match s with
  | EmptyString => true
  | String c r => negb (Ascii.eqb c "{") && no_open r
  end.

Fixpoint lits (s : string) : list segment :=
  match s with
  | EmptyString => []
  | String c r => Lit c :: lits r
  end.

(** The template after the tokens of [key] have been replaced by [v]. *)
Fixpoint subst1 (key v : string) (segs : list segment) : list segment :=
  match segs with
  | [] => []
  | Lit c :: r => Lit c :: subst1 key v r
  | Tok n :: r =>
      if String.eqb key n then lits v ++ subst1 key v r
      else Tok n :: subst1 key v r
  end.

Definition single (key v : string) (n : string) : option string :=
  if String.eqb key n then Some v else None.

Definition test_vars (name : string) : TemplateVariables :=
  {| PROJECT_NAME := VStr name;
     PROVIDER := VStr "openai";
     MODEL := VStr "gpt-4";
     PROVIDER_PACKAGE := VStr "@ai-sdk/openai";
     ENV_VAR_NAME := VStr "OPENAI_API_KEY";
     API_KEY_PLACEHOLDER := VStr "your-key";
     FRED_VERSION := VStr "latest" |}.

(** A project whose name is the placeholder of the model. *)
Definition nested_vars : TemplateVariables := test_vars "{{MODEL}}".

Definition greeting : list segment :=
  lits "Hello " ++ [Tok "PROJECT_NAME"] ++ lits "}, using { " ++ [Tok "PROVIDER"]
  ++ lits " with " ++ [Tok "MODEL"] ++ lits " and " ++ [Tok "UNKNOWN_VAR"].

End TemplateSpec.

(** ** The project materializer *)

Module MaterializerSpec.
Import JS Utils Generator.

(** [options] with the flag [includeExamples] set to [b]. *)
Definition with_examples (b : bool) (o : ProjectOptions) : ProjectOptions :=
  {| projectName := projectName o;
     provider := provider o;
     model := model o;
     apiKey := apiKey o;
     includeExamples := b;
     skipInstall := skipInstall o |}.

Definition readable (pkg : Package) (templatePath : string) : bool :=
  match readTemplateFile pkg templatePath with
  | Normal _ => true
  | Throw _ => false
  end.

Definition all_readable (pkg : Package) (todo : list (string * string)) : bool :=
  forallb (fun td => readable pkg (fst td)) todo.

(** What [copyTemplateFile] writes for a template. *)
Definition rendered (pkg : Package) (vars : TemplateVariables)
    (templatePath : string) : string :=
  match readTemplateFile pkg templatePath with
  | Normal content => processTemplate content vars
  | Throw _ => EmptyString
  end.

Definition outputs (pkg : Package) (destPath : string) (vars : TemplateVariables)
    (todo : list (string * string)) : list (string * string) :=
  List.map (fun td => (join destPath (snd td), rendered pkg vars (fst td))) todo.

(** The content of the secrets file. *)
Definition env_content (o : ProjectOptions) (key : string) : string :=
  to_string (getProviderEnvVar (provider o)) +:+ "=" +:+ key +:+ nl.

Definition env_file (destPath : string) (o : ProjectOptions)
  : list (string * string) :=
  match credential o with
  | Some key => [(join destPath ".env", env_content o key)]
  | None => []
  end.

Definition write_all (ws : list (string * string)) (m : gmap string string)
  : gmap string string :=
  fold_left (fun m w => <[ fst w := snd w ]> m) ws m.

Fixpoint find_write (ws : list (string * string)) (p : string) : option string :=
  match ws with
  | [] => None
  | (q, c) :: r => if String.eqb q p then Some c else find_write r p
  end.

Definition all_names : list string :=
  List.map snd (core_files ++ example_files) ++ [".env"].

(** The tree after the [mkdir] calls that open [generateProject]. *)
Definition prepared (d : string) (o : ProjectOptions) (fs : FS) : FS :=
  let fs := mkdir d fs in
  let fs := mkdir (join d "src") fs in
  let fs := mkdir (join (join d "src") "tools") fs in
  let fs := mkdir (join (join d "src") "agents") fs in
  if includeExamples o then mkdir (join (join d "src") "examples") fs else fs.

(** The files written by a run that finds all its templates. *)
Definition written (pkg : Package) (d : string) (o : ProjectOptions)
  : list (string * string) :=
  outputs pkg d (getTemplateVariables o) (manifest o) ++ env_file d o.

(** A sample installation, with the templates of [todo]. *)
Definition sample_root : string := "/opt/create-fred/dist/templates".

Definition sample_templates (todo : list (string * string))
  : gmap string string :=
  list_to_map
    (List.map (fun td => (join sample_root (fst td),
                          "[{{PROJECT_NAME}}/{{PROVIDER_PACKAGE}}] " +:+ snd td))
              todo).

Definition sample_package (todo : list (string * string)) : Package :=
  {| module_dir := "/opt/create-fred/dist";
     tree := {| files := sample_templates todo; dirs := {[ sample_root ]} |} |}.

Definition sample_options : ProjectOptions :=
  {| projectName := "p1";
     provider := "groq";
     model := "llama-3.1-70b-versatile";
     apiKey := Some "abc123";
     includeExamples := true;
     skipInstall := true |}.

Definition empty_fs : FS := {| files := ∅; dirs := ∅ |}.

(** The installation without the template of the README. *)
Definition before_readme : list (string * string) := firstn 5 core_files.
Definition after_readme : list (string * string) := skipn 6 core_files ++ example_files.

End MaterializerSpec.

(** ** The project name *)

Module ValidationSpec.
Import JS ProjectName.


(** A code unit that a JSON string literal must escape: the double quote
    (34), the backslash (92) and the control characters. *)
Definition json_escaped (c : ascii) : bool :=
  let n := N_of_ascii c in (n <=? 31)%N || (n =? 34)%N || (n =? 92)%N.

(** A path separator: the slash (47) or the backslash (92). *)
Definition separator (c : ascii) : bool :=
  let n := N_of_ascii c in (n =? 47)%N || (n =? 92)%N.

Fixpoint none_of (bad : ascii -> bool) (s : string) : bool :=
  match s with
  | EmptyString => true
  | String c r => negb (bad c) && none_of bad r
  end.

End ValidationSpec.

(** ** The provider registry, continued *)

Module RegistryMoreSpec.
Import JS Utils.

(** Every code unit is ASCII. *)
Fixpoint ascii_only (s : string) : bool :=
  match s with
  | EmptyString => true
  | String c r => (N_of_ascii c <? 128)%N && ascii_only r
  end.

(** No code unit is a lower-case ASCII letter. *)
Fixpoint no_lower (s : string) : bool :=
  match s with
  | EmptyString => true
  | String c r => negb (is_lower c) && no_lower r
  end.

(** The identifier reaches neither of the two inherited properties. *)
Definition plain (x : string) : bool :=
  match inherited (toLowerCase x) with
  | VUndefined => true
  | _ => false
  end.

(** The object literal has an own property [k]. *)
Definition knows (o : obj) (k : string) : bool :=
  match own o k with
  | Some _ => true
  | None => false
  end.

(** The string is not empty. *)
Definition nonempty (s : string) : bool :=
  match s with
  | EmptyString => false
  | String _ _ => true
  end.

End RegistryMoreSpec.

(** ** The model fetcher, continued *)

Module FetcherMoreSpec.
Import JS ModelFetcher.

(** The test of the OpenAI adapter on a model identifier. *)
Definition chat_model (s : string) : bool :=
  let id := toLowerCase s in
  startsWith id "gpt-" && negb (includes id "instruct")
  && negb (includes id "vision") && negb (includes id "embedding").

(** The word that the adapter of a provider filters out. *)
Definition excluded_word (p : string) : option string :=
  if String.eqb p "groq" then Some "embedding"
  else if String.eqb p "mistral" then Some "embed"
  else if String.eqb p "fireworks" then Some "embed"
  else None.

(** The request of each adapter that has a listing endpoint: the label
    used in its messages, the URL and the [Authorization] header. *)
Definition endpoint (p apiKey : string) : option (string * string * option string) :=
  if String.eqb p "openai"
  then Some ("OpenAI", "https://api.openai.com/v1/models", bearer apiKey)
  else if String.eqb p "groq"
  then Some ("Groq", "https://api.groq.com/openai/v1/models", bearer apiKey)
  else if String.eqb p "google"
  then Some ("Google",
             "https://generativelanguage.googleapis.com/v1beta/models?key=" +:+ apiKey,
             None)
  else if String.eqb p "mistral"
  then Some ("Mistral", "https://api.mistral.ai/v1/models", bearer apiKey)
  else if String.eqb p "cohere"
  then Some ("Cohere", "https://api.cohere.ai/v1/models", bearer apiKey)
  else if String.eqb p "fireworks"
  then Some ("Fireworks", "https://api.fireworks.ai/inference/v1/models",
             bearer apiKey)
  else if String.eqb p "xai"
  then Some ("xAI", "https://api.x.ai/v1/models", bearer apiKey)
  else if String.eqb p "perplexity"
  then Some ("Perplexity", "https://api.perplexity.ai/models", bearer apiKey)
  else None.

(** The message of the error that an adapter rethrows. *)
Definition rethrown (label cause : string) : error :=
  Err ("Failed to fetch " +:+ label +:+ " models: " +:+ cause).

(** The cause reported for a non-success status. *)
Definition status_cause (label : string) (r : Response) : string :=
  label +:+ " API error: " +:+ show_status (status r) +:+ " " +:+ statusText r.

(** A listing with one entry per identifier. *)
Definition listing_of (ids : list jsval) : jsval :=
  JObj [("data", JArr (List.map (fun id => JObj [("id", id)]) ids))].

End FetcherMoreSpec.

(** ** The template engine, continued *)

Module TemplateMoreSpec.
Import JS Utils Generator TemplateSpec RegistryMoreSpec.

(** No placeholder of a supplied variable occurs in the content. *)
Definition no_placeholder (es : list (string * value)) (content : string) : bool :=
  forallb (fun kv => negb (includes content (token (fst kv)))) es.

(** The template after every token of a supplied variable has been
    replaced by its value. *)
Fixpoint subst_all (look : string -> option string) (segs : list segment)
  : list segment :=
  match segs with
  | [] => []
  | Lit c :: r => Lit c :: subst_all look r
  | Tok n :: r =>
      match look n with
      | Some v => lits v ++ subst_all look r
      | None => Tok n :: subst_all look r
      end
  end.

(** Options whose name, provider, model and credential have no brace and
    no dollar sign, for a provider that does not reach an inherited
    property of the registry's maps. *)
Definition clean_options (o : ProjectOptions) : bool :=
  clean (projectName o) && clean (provider o) && clean (model o)
  && match credential o with
     | Some key => clean key
     | None => true
     end
  && plain (provider o).

End TemplateMoreSpec.

(** ** The project materializer, continued *)

Module MaterializerMoreSpec.
Import JS Utils Generator MaterializerSpec.

(** The two candidates of [getTemplateDir]. *)
Definition devPath (pkg : Package) : string := join (module_dir pkg) "templates".
Definition prodPath (pkg : Package) : string :=
  join (join (module_dir pkg) "..") "templates".

(** The directories that [generateProject] creates before it writes. *)
Definition skeleton (d : string) (examples : bool) : gset string :=
  {[ d; join d "src"; join (join d "src") "tools"; join (join d "src") "agents" ]}
  ∪ (if examples then {[ join (join d "src") "examples" ]} else ∅).

(** The path has no slash. *)
Fixpoint no_slash (s : string) : bool :=
  match s with
  | EmptyString => true
  | String c r => negb (Ascii.eqb c "/") && no_slash r
  end.

End MaterializerMoreSpec.

(** ** The command line *)

Module CliSpec.
Import JS Utils Generator ProjectName Cli MaterializerSpec.




End CliSpec.

(* ===================================================================== *)
(** * Properties *)
(* ===================================================================== *)

(** ** The provider registry *)

Module RegistryProps.
Import JS Utils RegistrySpec.

Lemma lower_unit_not_upper c : is_upper (lower_unit c) = false.
Proof.
  unfold lower_unit. destruct (is_upper c) eqn:E; [|exact E].
  destruct c as [[] [] [] [] [] [] [] []]; vm_compute in E |- *; congruence.
Qed.

Lemma toLowerCase_idem s : toLowerCase (toLowerCase s) = toLowerCase s.
Proof.
  induction s as [|c r IH]; [reflexivity|].
  cbn. f_equal; [|exact IH].
  unfold lower_unit at 1. now rewrite lower_unit_not_upper.
Qed.

(** No lower-cased identifier names one of the other properties of
    [Object.prototype]: the probe of the registry can only reach the two
    of [inherited]. *)
Lemma lowered_not_prototype_name x n :
  In n other_prototype_names -> toLowerCase x <> n.
Proof.
  intros Hn E.
  assert (F : toLowerCase n = n) by (rewrite <- E; apply toLowerCase_idem).
  cbn in Hn.
  repeat (destruct Hn as [<-|Hn]; [vm_compute in F; discriminate F|]).
  exact Hn.
Qed.

Example package_openai : getProviderPackageName "OPENAI" = VStr "@ai-sdk/openai".
Proof. reflexivity. Qed.

Example package_unknown : getProviderPackageName "unknown" = VStr "@ai-sdk/unknown".
Proof. reflexivity. Qed.

Example env_azure : getProviderEnvVar "azure" = VStr "AZURE_OPENAI_API_KEY".
Proof. reflexivity. Qed.

Example env_unknown : getProviderEnvVar "unknown" = VStr "UNKNOWN_API_KEY".
Proof. reflexivity. Qed.

Lemma own_none_not_key (o : obj) k :
  existsb (String.eqb k) (map fst o) = false -> own o k = None.
Proof.
  induction o as [|[k' v] r IH]; cbn; [reflexivity|].
  rewrite orb_false_iff. intros [H1 H2].
  rewrite String.eqb_sym, H1. auto.
Qed.

(** The fallback rule, for an identifier that names neither a key nor an
    inherited property. *)
Lemma fallback_rule x :
  recognised x = false ->
  inherited (toLowerCase x) = VUndefined ->
  getProviderPackageName x = VStr ("@ai-sdk/" +:+ toLowerCase x) /\
  getProviderEnvVar x = VStr (toUpperCase x +:+ "_API_KEY") /\
  getDefaultModel x = VStr "gpt-4o-mini".
Proof.
  intros Hr Hi. unfold recognised, supported in Hr.
  unfold getProviderPackageName, getProviderEnvVar, getDefaultModel, get.
  rewrite (own_none_not_key providerMap), (own_none_not_key envMap),
    (own_none_not_key modelMap) by exact Hr.
  rewrite Hi. cbn. auto.
Qed.

(** C3 (the claim fails on the code at this input).  The identifier
    [constructor] is not in the supported set, in either casing, yet the
    registry does not answer with the fallback strings: the probe
    [map[key]] finds the property [constructor] that every object literal
    inherits, a truthy value, and [||] returns it.  So the package name is
    not ["@ai-sdk/constructor"], the environment variable is not
    ["CONSTRUCTOR_API_KEY"] and the default model is not ["gpt-4o-mini"];
    the three results are not even strings. *)
Theorem unknown_constructor_not_fallback :
  recognised "constructor" = false /\
  ~ In "constructor" supported /\
  getProviderPackageName "constructor" = VObjectCtor /\
  getProviderPackageName "constructor"
    <> VStr ("@ai-sdk/" +:+ toLowerCase "constructor") /\
  getProviderEnvVar "constructor" = VObjectCtor /\
  getProviderEnvVar "constructor"
    <> VStr (toUpperCase "constructor" +:+ "_API_KEY") /\
  getDefaultModel "constructor" = VObjectCtor /\
  getDefaultModel "constructor" <> VStr "gpt-4o-mini".
Proof.
  repeat split; try reflexivity; try discriminate.
  intros H. cbn in H.
  repeat (destruct H as [H|H]; [discriminate H|]). exact H.
Qed.

Lemma case_insensitiveb_sound f id :
  case_insensitiveb f id = true -> case_insensitive f id.
Proof.
  unfold case_insensitiveb, case_insensitive.
  destruct (f id), (f (toUpperCase id)), (f (toLowerCase id)); try discriminate.
  rewrite andb_true_iff, !String.eqb_eq. intros [-> ->]. auto.
Qed.

(** C4.  For every identifier of the supported set, the package name, the
    environment variable and the default model are the same for the
    identifier, its upper-cased form and its lower-cased form. *)
Theorem registry_case_insensitive id :
  In id supported ->
  case_insensitive getProviderPackageName id /\
  case_insensitive getProviderEnvVar id /\
  case_insensitive getDefaultModel id.
Proof.
  intros H.
  assert (A : forallb (fun i => case_insensitiveb getProviderPackageName i
                        && case_insensitiveb getProviderEnvVar i
                        && case_insensitiveb getDefaultModel i) supported = true)
    by (vm_compute; reflexivity).
  rewrite forallb_forall in A. specialize (A id H).
  rewrite !andb_true_iff in A. destruct A as [[A1 A2] A3].
  auto using case_insensitiveb_sound.
Qed.

Lemma registry_case_insensitive_witness :
  In "azure-openai" supported /\
  (case_insensitive getProviderPackageName "azure-openai" /\
   case_insensitive getProviderEnvVar "azure-openai" /\
   case_insensitive getDefaultModel "azure-openai").
Proof.
  assert (H : In "azure-openai" supported) by (cbn; tauto).
  split; [exact H | exact (registry_case_insensitive "azure-openai" H)].
Defined.

End RegistryProps.

(** ** The model fetcher *)

Module FetcherProps.
Import JS ModelFetcher FetcherSpec.

Ltac unbind := unfold mbind, completion_bind, bind in *.

Lemma listing_failure label url authorization field chain net :
  field = "data" \/ field = "models" ->
  transport_failure net url authorization ->
  (exists e, listing label url authorization field chain net = Throw e) \/
  listing label url authorization field chain net = Normal None.
Proof.
  unfold listing, try_catch. unbind.
  intros Hf [[e H] | [r [H [Hok | [[e He] | [body [Hb Hl]]]]]]]; rewrite H.
  - eauto.
  - rewrite Hok. cbn. eauto.
  - destruct (ok r); cbn; [rewrite He|]; eauto.
  - destruct (ok r); cbn; [rewrite Hb|]; eauto.
    unfold lacks_listing, absent_field in Hl.
    apply andb_true_iff in Hl as [Hd Hm].
    assert (A : match get_prop body field with
                | Throw _ | Normal JUndefined | Normal JNull => true
                | Normal _ => false
                end = true) by (destruct Hf as [-> | ->]; assumption).
    destruct (get_prop body field) as [[]|]; try discriminate A; cbn; eauto.
Qed.

Lemma adapter_cases p a :
  adapter_for p = Some a ->
  (p = "anthropic" /\ a = fetchAnthropicModels) \/
  (p <> "anthropic" /\
   exists label field chain,
     (field = "data" \/ field = "models") /\
     forall net apiKey,
       exists url authorization,
         a net apiKey = listing label url authorization field chain net).
Proof.
  unfold adapter_for.
  repeat match goal with
  | |- context [String.eqb p ?s] => destruct (String.eqb_spec p s) as [->|?]
  end; intros H; inversion H; subst; clear H;
  try (left; split; reflexivity);
  right; (split; [congruence|]).
  all: unfold fetchOpenAIModels, fetchGroqModels, fetchGoogleModels,
         fetchMistralModels, fetchCohereModels, fetchFireworksModels,
         fetchXaiModels, fetchPerplexityModels.
  all: match goal with
       | |- context [listing ?l _ _ ?f ?c] => exists l, f, c
       end; (split; [auto|]); intros net apiKey; eauto.
Qed.

(** C1.  [fetchModelsFromProvider] never completes by throwing: it
    returns a list or [null].  Whenever the adapter it dispatches to
    throws, the result is [null]; in particular, for every provider but
    Anthropic (whose adapter makes no request), a transport on which every
    request fails -- rejected, answered with a non-success status,
    answered with an unparsable body, or with a body that lacks the
    listing -- gives [null]. *)
Theorem fetchModels_never_throws net provider apiKey :
  (exists r, fetchModelsFromProvider net provider apiKey = Normal r) /\
  (forall adapter e,
      adapter_for (toLowerCase provider) = Some adapter ->
      adapter net apiKey = Throw e ->
      fetchModelsFromProvider net provider apiKey = Normal None) /\
  ((forall url authorization, transport_failure net url authorization) ->
   toLowerCase provider <> "anthropic" ->
   fetchModelsFromProvider net provider apiKey = Normal None).
Proof.
  unfold fetchModelsFromProvider, try_catch. unbind.
  split; [|split].
  - destruct (adapter_for (toLowerCase provider)) as [a|]; [|eauto].
    destruct (a net apiKey) as [[l|]|e]; eauto.
    destruct (0 <? List.length l)%nat; eauto.
  - intros a e -> ->. reflexivity.
  - intros Hnet Hp.
    destruct (adapter_for (toLowerCase provider)) as [a|] eqn:Ha; [|reflexivity].
    apply adapter_cases in Ha as [[E _] | [_ (label & field & chain & Hf & H)]];
      [contradiction|].
    destruct (H net apiKey) as (url & au & ->).
    destruct (listing_failure label url au field chain net Hf (Hnet _ _))
      as [[e ->] | ->]; reflexivity.
Qed.

(** C10.  The result is never an empty list: it is [null], or a list with
    at least one element. *)
Theorem fetchModels_never_empty net provider apiKey :
  fetchModelsFromProvider net provider apiKey = Normal None \/
  exists x l, fetchModelsFromProvider net provider apiKey = Normal (Some (x :: l)).
Proof.
  unfold fetchModelsFromProvider, try_catch. unbind.
  destruct (adapter_for (toLowerCase provider)) as [a|]; [|auto].
  destruct (a net apiKey) as [[[|x l]|]|e]; cbn; eauto.
Qed.

(** *** Sorting *)

Lemma insert_by_hd k v l p :
  key_le p (k, v) -> HdRel key_le p l -> HdRel key_le p (insert_by k v l).
Proof.
  intros Hp Hl. destruct l as [|[k' v'] r]; cbn.
  - constructor. exact Hp.
  - destruct (String.leb k k'); constructor; [exact Hp|].
    inversion Hl; assumption.
Qed.

Lemma insert_by_sorted k v l :
  Sorted key_le l -> Sorted key_le (insert_by k v l).
Proof.
  induction 1 as [|[k' v'] r Hs IH Hhd]; cbn.
  - repeat constructor.
  - destruct (String.leb k k') eqn:E.
    + constructor; [constructor; assumption|]. constructor. exact E.
    + constructor; [exact IH|].
      apply insert_by_hd; [|exact Hhd].
      unfold key_le; cbn. destruct (String.leb_total k k'); congruence.
Qed.

Lemma isort_sorted l : Sorted key_le (isort l).
Proof.
  induction l as [|[k v] r IH]; cbn; [constructor|].
  now apply insert_by_sorted.
Qed.

Lemma insert_by_Forall (P : string * jsval -> Prop) k v l :
  P (k, v) -> Forall P l -> Forall P (insert_by k v l).
Proof.
  intros Hp. induction 1 as [|[k' v'] r Hx Hr IH]; cbn.
  - repeat constructor. exact Hp.
  - destruct (String.leb k k'); repeat constructor; assumption.
Qed.

Lemma isort_Forall (P : string * jsval -> Prop) l :
  Forall P l -> Forall P (isort l).
Proof.
  induction 1 as [|[k v] r Hx Hr IH]; cbn; [constructor|].
  now apply insert_by_Forall.
Qed.

Lemma keyed_le p q : keyed p -> keyed q -> key_le p q -> default_le (snd p) (snd q).
Proof.
  intros [Hp Up] [Hq Uq] H. unfold default_le, default_leb.
  rewrite Hp, Hq.
  destruct (snd q); try discriminate Uq; destruct (snd p); try discriminate Up;
    exact H.
Qed.

Lemma sorted_values ps :
  Forall keyed ps -> Sorted key_le ps -> Sorted default_le (List.map snd ps).
Proof.
  intros Hk Hs. induction Hs as [|p r Hs IH Hhd]; cbn; [constructor|].
  inversion Hk as [|? ? Hp Hr]; subst.
  constructor; [now apply IH|].
  destruct Hhd as [|q r' Hpq]; cbn; constructor.
  inversion Hr; subst. now apply keyed_le.
Qed.

Lemma sorted_then_undefined vals undefs :
  Sorted default_le vals ->
  Forall (fun v => v = JUndefined) undefs ->
  Sorted default_le (vals ++ undefs).
Proof.
  intros Hs Hu. induction Hs as [|x r Hs IH Hhd]; cbn.
  - induction Hu as [|u us Hu0 Hus IHu]; constructor; [exact IHu|].
    destruct Hus as [|u' us' -> _]; constructor. reflexivity.
  - constructor; [exact IH|].
    destruct Hhd as [|y r' Hxy]; cbn; [|constructor; exact Hxy].
    destruct Hu as [|u us -> _]; constructor. reflexivity.
Qed.

Lemma mapM_keys (f : jsval -> completion string) l ks :
  mapM f l = Normal ks -> Forall2 (fun x k => f x = Normal k) l ks.
Proof.
  revert ks. induction l as [|x r IH]; cbn; intros ks H.
  - inversion H. constructor.
  - unbind. destruct (f x) as [k|] eqn:E; [|discriminate].
    destruct (mapM f r) as [ks'|]; [|discriminate].
    inversion H; subst. constructor; auto.
Qed.

Lemma combine_keyed l ks :
  Forall2 (fun x k => toStringV x = Normal k) l ks ->
  Forall (fun v => is_undefined v = false) l ->
  Forall keyed (combine ks l).
Proof.
  induction 1 as [|x k r ks' Hx Hr IH]; cbn; intros Hd; [constructor|].
  inversion Hd; subst. constructor; [split; assumption|]. auto.
Qed.

Lemma filter_defined (l : list jsval) :
  Forall (fun v => is_undefined v = false)
         (List.filter (fun v => negb (is_undefined v)) l).
Proof.
  apply List.Forall_forall. intros v Hv. apply filter_In in Hv as [_ Hv].
  now apply negb_true_iff.
Qed.

Lemma filter_undefined (l : list jsval) :
  Forall (fun v => v = JUndefined) (List.filter is_undefined l).
Proof.
  apply List.Forall_forall. intros v Hv. apply filter_In in Hv as [_ Hv].
  destruct v; try discriminate. reflexivity.
Qed.

(** What [sort()] returns is sorted. *)
Lemma array_sort_sorted l l' :
  array_sort l = Normal l' -> Sorted default_le l'.
Proof.
  unfold array_sort. unbind.
  set (defined := List.filter (fun v => negb (is_undefined v)) l).
  set (undefs := List.filter is_undefined l).
  destruct (List.length defined <? 2)%nat eqn:E.
  - intros H. inversion H; subst; clear H.
    apply sorted_then_undefined; [|apply filter_undefined].
    destruct defined as [|x [|y r]]; try discriminate; repeat constructor.
  - destruct (mapM toStringV defined) as [ks|] eqn:K; [|discriminate].
    intros H. inversion H; subst; clear H.
    apply sorted_then_undefined; [|apply filter_undefined].
    apply sorted_values; [|apply isort_sorted].
    apply isort_Forall, combine_keyed; [now apply mapM_keys|].
    apply filter_defined.
Qed.

Lemma listing_result label url authorization field chain net l :
  listing label url authorization field chain net = Normal (Some l) ->
  exists d, chain d = Normal l.
Proof.
  unfold listing, try_catch, optional. unbind.
  destruct (net url authorization) as [r|]; [|discriminate].
  destruct (ok r); cbn; [|discriminate].
  destruct (json r) as [data|]; [|discriminate].
  destruct (get_prop data field) as [d|]; [|discriminate].
  destruct d; try discriminate;
    match goal with
    | |- context [chain ?d] =>
        destruct (chain d) as [l0|] eqn:C; [|discriminate];
        intros H; inversion H; subst; eauto
    end.
Qed.

Ltac chain_sort :=
  intros ? ?; unbind;
  repeat match goal with
  | |- context [match ?m with Normal _ => _ | Throw _ => _ end] =>
      lazymatch m with
      | array_sort _ => fail
      | _ => destruct m; [|discriminate]
      end
  end; eauto.

Lemma sorted_listing label url authorization field chain net l :
  ends_in_sort chain ->
  listing label url authorization field chain net = Normal (Some l) ->
  Sorted default_le l.
Proof.
  intros Hc H. apply listing_result in H as [d H].
  apply Hc in H as [l0 H]. now apply array_sort_sorted in H.
Qed.

(** Every adapter but Anthropic's returns a sorted list. *)
Lemma adapter_sorted p a net apiKey l :
  adapter_for p = Some a -> p <> "anthropic" ->
  a net apiKey = Normal (Some l) -> Sorted default_le l.
Proof.
  unfold adapter_for.
  repeat match goal with
  | |- context [String.eqb p ?s] => destruct (String.eqb_spec p s) as [->|?]
  end; intros H; inversion H; subst; clear H; intros Hp; try congruence.
  all: apply sorted_listing; chain_sort.
Qed.

Lemma adapter_anthropic net apiKey l :
  fetchAnthropicModels net apiKey = Normal (Some l) -> l = anthropic_models.
Proof.
  unfold fetchAnthropicModels. destruct (negb _); [discriminate|].
  congruence.
Qed.

Lemma fetchModels_result net provider apiKey l :
  fetchModelsFromProvider net provider apiKey = Normal (Some l) ->
  exists a, adapter_for (toLowerCase provider) = Some a /\
            a net apiKey = Normal (Some l).
Proof.
  unfold fetchModelsFromProvider, try_catch. unbind.
  destruct (adapter_for (toLowerCase provider)) as [a|]; [|discriminate].
  destruct (a net apiKey) as [[l0|]|e] eqn:E; try discriminate.
  destruct (0 <? List.length l0)%nat; [|discriminate].
  intros H. inversion H; subst. exists a. split; [reflexivity | exact E].
Qed.

Lemma strings_sorted ss :
  Sorted default_le (List.map JStr ss) ->
  Sorted (fun a b => String.leb a b = true) ss.
Proof.
  induction ss as [|a r IH]; cbn; intros H; [constructor|].
  apply Sorted_inv in H as [Hs Hhd]. constructor; [auto|].
  destruct r; cbn in *; constructor. inversion Hhd; assumption.
Qed.

(** C5 (the claim fails on the code at this input).  With a key of the
    expected shape the Anthropic adapter returns its curated list as
    written, and that list is not sorted: [claude-3-sonnet-20240229]
    comes before [claude-3-haiku-20240307]. *)
Lemma anthropic_list_not_sorted :
  fetchModelsFromProvider offline "anthropic" "sk-ant-api03-key"
    = Normal (Some anthropic_models) /\
  ~ Sorted default_le anthropic_models.
Proof.
  split; [reflexivity|].
  intros H. unfold anthropic_models in H.
  apply Sorted_inv in H as [H _]. apply Sorted_inv in H as [H _].
  apply Sorted_inv in H as [_ H]. inversion H as [|? ? E]; subst.
  vm_compute in E. discriminate E.
Qed.

(** C5, amended.  Whenever [fetchModelsFromProvider] returns a list for a
    provider other than Anthropic, the list is sorted in the order of
    [sort()] (for a list of strings: lexicographically, by code units).
    For Anthropic the list returned is the curated list, in the order in
    which the source gives it. *)
Theorem fetched_list_sorted net provider apiKey l :
  fetchModelsFromProvider net provider apiKey = Normal (Some l) ->
  (toLowerCase provider <> "anthropic" ->
     Sorted default_le l /\
     forall ss, l = List.map JStr ss ->
                Sorted (fun a b => String.leb a b = true) ss) /\
  (toLowerCase provider = "anthropic" -> l = anthropic_models).
Proof.
  intros H. apply fetchModels_result in H as (a & Ha & H). split.
  - intros Hp. assert (S : Sorted default_le l) by eauto using adapter_sorted.
    split; [exact S|]. intros ss ->. now apply strings_sorted.
  - intros Hp. rewrite Hp in Ha. cbn in Ha. inversion Ha; subst.
    eauto using adapter_anthropic.
Qed.

Lemma fetched_list_sorted_witness :
  fetchModelsFromProvider (answering openai_body) "OpenAI" "sk-test"
    = Normal (Some [JStr "gpt-3.5-turbo"; JStr "gpt-4"; JStr "gpt-4o"]) /\
  (toLowerCase "OpenAI" <> "anthropic" ->
     Sorted default_le [JStr "gpt-3.5-turbo"; JStr "gpt-4"; JStr "gpt-4o"] /\
     forall ss, [JStr "gpt-3.5-turbo"; JStr "gpt-4"; JStr "gpt-4o"] = List.map JStr ss ->
                Sorted (fun a b => String.leb a b = true) ss) /\
  (toLowerCase "OpenAI" = "anthropic" ->
     [JStr "gpt-3.5-turbo"; JStr "gpt-4"; JStr "gpt-4o"] = anthropic_models).
Proof.
  assert (E : fetchModelsFromProvider (answering openai_body) "OpenAI" "sk-test"
              = Normal (Some [JStr "gpt-3.5-turbo"; JStr "gpt-4"; JStr "gpt-4o"]))
    by (vm_compute; reflexivity).
  split; [exact E|].
  exact (fetched_list_sorted (answering openai_body) "OpenAI" "sk-test" _ E).
Defined.

(** A provider without an adapter: [null], whatever the transport. *)
Example ollama_is_absent net : fetchModelsFromProvider net "ollama" "key" = Normal None.
Proof. reflexivity. Qed.

(** A server error: [null]. *)
Example server_error_is_absent :
  fetchModelsFromProvider
    (fun _ _ => Normal {| ok := false; status := 500;
                          statusText := "Internal Server Error";
                          json := Normal JNull |})
    "groq" "key" = Normal None.
Proof. reflexivity. Qed.

(** The error that the Groq adapter throws on that answer. *)
Example server_error_message :
  fetchGroqModels
    (fun _ _ => Normal {| ok := false; status := 500;
                          statusText := "Internal Server Error";
                          json := Normal JNull |}) "key"
  = Throw (Err "Failed to fetch Groq models: Groq API error: 500 Internal Server Error").
Proof. vm_compute. reflexivity. Qed.

(** A body without the expected member, and an empty listing: [null]. *)
Example missing_field_is_absent :
  fetchModelsFromProvider (answering (JObj [("error", JStr "unauthorized")]))
                          "mistral" "key" = Normal None.
Proof. reflexivity. Qed.

Example empty_listing_is_absent :
  fetchModelsFromProvider (answering (JObj [("data", JArr [])])) "xai" "key"
  = Normal None.
Proof. reflexivity. Qed.

(** An entry without [id]: the OpenAI adapter throws, the xAI adapter
    returns the [undefined] it read. *)
Example entry_without_id :
  fetchModelsFromProvider (answering (JObj [("data", JArr [JObj []])])) "openai" "k"
    = Normal None /\
  fetchModelsFromProvider (answering (JObj [("data", JArr [JObj []])])) "xai" "k"
    = Normal (Some [JUndefined]).
Proof. split; reflexivity. Qed.

(** Numbers are ordered by their rendering: ["10"] is before ["9"]. *)
Example numbers_sorted_as_strings :
  fetchModelsFromProvider
    (answering (JObj [("data", JArr [entry (JNum "9"); entry (JNum "10")])]))
    "perplexity" "k"
  = Normal (Some [JNum "10"; JNum "9"]).
Proof. vm_compute. reflexivity. Qed.

End FetcherProps.

(** ** The template engine *)

Module TemplateProps.
Import JS Utils Generator TemplateSpec.

(** *** Strings *)

#[local] Arguments String.append !s1 s2 : simpl nomatch.
#[local] Arguments Ascii.eqb !a !b.

Lemma app_nil_r (s : string) : s +:+ "" = s.
Proof. induction s; cbn; congruence. Qed.

Lemma app_assoc (a b c : string) : (a +:+ b) +:+ c = a +:+ (b +:+ c).
Proof. induction a; cbn; congruence. Qed.

Lemma prefix_app (a b : string) : prefix a (a +:+ b) = true.
Proof.
  induction a as [|c a IH]; cbn; [reflexivity|].
  now rewrite Ascii.eqb_refl.
Qed.

Lemma drop_app (a b : string) : drop (String.length a) (a +:+ b) = b.
Proof. induction a; cbn; auto. Qed.

Lemma length_app (a b : string) :
  String.length (a +:+ b) = String.length a + String.length b.
Proof. induction a; cbn; auto. Qed.

Lemma brace_free_no_open s : brace_free s = true -> no_open s = true.
Proof.
  induction s as [|c r IH]; cbn; [reflexivity|].
  rewrite !andb_true_iff. intros [[H1 _] H2]. auto.
Qed.

Lemma clean_brace_free s : clean s = true -> brace_free s = true.
Proof.
  induction s as [|c r IH]; cbn; [reflexivity|].
  rewrite !andb_true_iff. intros [[[H1 H2] _] H3]. auto.
Qed.

(** Two tokens with brace-free names: one starts a text that starts with
    the other only if the names are the same. *)
Lemma name_prefix k k' r :
  brace_free k = true -> brace_free k' = true ->
  prefix (k +:+ "}}") (k' +:+ "}}" +:+ r) = true -> k = k'.
Proof.
  revert k'. induction k as [|c k IH]; intros [|c' k'] Hk Hk' H; cbn in *.
  - reflexivity.
  - destruct (Ascii.eqb_spec "}" c') as [<-|]; cbn in H; [|discriminate H].
    cbn in Hk'. discriminate Hk'.
  - destruct (Ascii.eqb_spec c "}") as [->|]; cbn in H; [|discriminate H].
    cbn in Hk. discriminate Hk.
  - destruct (Ascii.eqb_spec c c') as [->|]; cbn in H; [|discriminate H].
    rewrite !andb_true_iff in Hk, Hk'. f_equal. apply IH; tauto.
Qed.

Lemma token_prefix k k' r :
  brace_free k = true -> brace_free k' = true ->
  prefix (token k) (token k' +:+ r) = true -> k = k'.
Proof.
  intros Hk Hk' H. unfold token in H. cbn in H.
  rewrite app_assoc in H. eauto using name_prefix.
Qed.

Lemma token_prefix_char k c r :
  c <> "{"%char -> prefix (token k) (String c r) = false.
Proof.
  intros Hc. unfold token. cbn.
  destruct (Ascii.eqb_spec "{" c); [congruence | reflexivity].
Qed.

Lemma token_prefix_open k r :
  starts_open r = false -> prefix (token k) (String "{" r) = false.
Proof.
  intros Hr. unfold token. cbn. destruct r as [|c r]; [reflexivity|].
  cbn in Hr. destruct (Ascii.eqb_spec "{" c) as [<-|]; [discriminate | reflexivity].
Qed.

Lemma getSubstitution_clean matched pre post r :
  clean r = true -> getSubstitution matched pre post r = r.
Proof.
  induction r as [|c tl IH]; cbn; [reflexivity|].
  rewrite !andb_true_iff, !negb_true_iff. intros [[[_ _] Hd] Hc].
  rewrite Hd. destruct tl as [|d tl']; [reflexivity|].
  f_equal. exact (IH Hc).
Qed.

(** *** One pass over a well-formed template *)

Section Scan.

Variable find : string -> string -> option (string * nat).
Variable look : string -> option string.

Hypothesis find_hit : forall pre k v r,
  brace_free k = true -> look k = Some v ->
  find pre (token k +:+ r) = Some (v, String.length (token k)).
Hypothesis find_miss : forall pre k r,
  brace_free k = true -> look k = None -> find pre (token k +:+ r) = None.
Hypothesis find_char : forall pre c r,
  c <> "{"%char -> find pre (String c r) = None.
Hypothesis find_open : forall pre r,
  starts_open r = false -> find pre (String "{" r) = None.

Lemma scan_skip w pre r :
  scan find (String.length w) pre (w +:+ r) = scan find 0 (pre +:+ w) r.
Proof using Type.
  revert pre. induction w as [|c w IH]; intros pre; cbn.
  - now rewrite app_nil_r.
  - rewrite IH, app_assoc. reflexivity.
Qed.

Lemma scan_plain w pre r :
  no_open w = true ->
  scan find 0 pre (w +:+ r) = w +:+ scan find 0 (pre +:+ w) r.
Proof using find_char.
  revert pre. induction w as [|c w IH]; intros pre; cbn.
  - now rewrite app_nil_r.
  - rewrite andb_true_iff, negb_true_iff. intros [Hc Hw].
    rewrite find_char by (intros ->; discriminate).
    rewrite IH by exact Hw. now rewrite app_assoc.
Qed.

Lemma scan_hit k v pre r :
  brace_free k = true -> look k = Some v ->
  exists pre', scan find 0 pre (token k +:+ r) = v +:+ scan find 0 pre' r.
Proof using find_hit.
  intros Hk Hv.
  assert (E : token k +:+ r = String "{" (String "{" (k +:+ "}}") +:+ r))
    by reflexivity.
  rewrite E. cbn [scan]. rewrite <- E, (find_hit _ _ _ _ Hk Hv).
  replace (Nat.pred (String.length (token k)))
    with (String.length (String "{" (k +:+ "}}"))) by reflexivity.
  rewrite scan_skip. eauto.
Qed.

Lemma starts_open_name k r :
  brace_free k = true -> starts_open (k +:+ "}}" +:+ r) = false.
Proof using Type.
  destruct k as [|c k]; cbn; [reflexivity|].
  rewrite !andb_true_iff, negb_true_iff. tauto.
Qed.

Lemma scan_miss k pre r :
  brace_free k = true -> look k = None ->
  exists pre', scan find 0 pre (token k +:+ r) = token k +:+ scan find 0 pre' r.
Proof using find_miss find_char find_open.
  intros Hk Hv.
  assert (E : token k +:+ r = String "{" (String "{" (k +:+ "}}" +:+ r))).
  { unfold token. cbn. now rewrite app_assoc. }
  rewrite E. cbn [scan]. rewrite <- E, (find_miss _ _ _ Hk Hv).
  rewrite find_open by now apply starts_open_name.
  rewrite scan_plain by now apply brace_free_no_open.
  change ("}}" +:+ r) with (String "}" (String "}" r)). cbn [scan].
  rewrite !find_char by discriminate.
  eexists. unfold token. cbn. rewrite (app_assoc k "}}"). reflexivity.
Qed.

Lemma opens_starts segs : opens segs = false -> starts_open (unparse segs) = false.
Proof using Type.
  destruct segs as [|[c|n] r]; cbn; auto.
Qed.

Lemma scan_unparse segs : forall pre,
  well_formed segs = true ->
  scan find 0 pre (unparse segs) = render look segs.
Proof using find_hit find_miss find_char find_open.
  induction segs as [|[c|n] r IH]; intros pre; cbn [well_formed unparse render].
  - reflexivity.
  - rewrite andb_true_iff, negb_true_iff, andb_false_iff.
    intros [Hc Hr]. cbn [scan].
    destruct (Ascii.eqb_spec c "{") as [->|Hne].
    + destruct Hc as [Hc|Hc]; [discriminate|].
      rewrite find_open by now apply opens_starts. now rewrite IH.
    + rewrite find_char by exact Hne. now rewrite IH.
  - rewrite andb_true_iff. intros [Hn Hr].
    destruct (look n) as [v|] eqn:L.
    + destruct (scan_hit n v pre (unparse r) Hn L) as [pre' ->]. now rewrite IH.
    + destruct (scan_miss n pre (unparse r) Hn L) as [pre' ->]. now rewrite IH.
Qed.

End Scan.

(** *** One replacement, on segments *)

Lemma replaceAll_unparse key v segs :
  brace_free key = true -> clean v = true -> well_formed segs = true ->
  replaceAll key (VStr v) (unparse segs) = render (single key v) segs.
Proof.
  intros Hk Hv Hw. unfold replaceAll.
  apply scan_unparse; [| | | |exact Hw]; unfold find_token, single.
  - intros pre k v' r Hb. destruct (String.eqb_spec key k) as [->|]; [|discriminate].
    intros [= <-]. rewrite prefix_app. cbn [replacement].
    now rewrite getSubstitution_clean.
  - intros pre k r Hb. destruct (String.eqb_spec key k) as [->|Hne]; [discriminate|].
    intros _. destruct (prefix (token key) (token k +:+ r)) eqn:P; [|reflexivity].
    apply token_prefix in P; [contradiction|assumption..].
  - intros pre c r Hc. now rewrite token_prefix_char.
  - intros pre r Hr. now rewrite token_prefix_open.
Qed.

Lemma unparse_lits v r : unparse (lits v ++ r) = v +:+ unparse r.
Proof. induction v; cbn; congruence. Qed.

Lemma render_lits look v r : render look (lits v ++ r) = v +:+ render look r.
Proof. induction v; cbn; congruence. Qed.

Lemma unparse_subst1 key v segs :
  unparse (subst1 key v segs) = render (single key v) segs.
Proof.
  induction segs as [|[c|n] r IH]; cbn; [reflexivity|congruence|].
  unfold single at 1. destruct (String.eqb key n); cbn.
  - now rewrite unparse_lits, IH.
  - now rewrite IH.
Qed.

Lemma well_formed_lits v r :
  no_open v = true -> well_formed r = true -> well_formed (lits v ++ r) = true.
Proof.
  induction v as [|c v IH]; cbn; [auto|].
  rewrite andb_true_iff, negb_true_iff. intros [-> Hv] Hr. cbn. auto.
Qed.

Lemma opens_subst1 key v segs :
  opens segs = false -> no_open v = true -> opens (subst1 key v segs) = false.
Proof.
  destruct segs as [|[c|n] r]; cbn; auto. discriminate.
Qed.

Lemma well_formed_subst1 key v segs :
  clean v = true -> well_formed segs = true ->
  well_formed (subst1 key v segs) = true.
Proof.
  intros Hv. induction segs as [|[c|n] r IH]; cbn; [reflexivity| |].
  - rewrite !andb_true_iff, !negb_true_iff, !andb_false_iff.
    intros [[Hc|Hc] Hr]; (split; [|auto]); [now left|right].
    apply opens_subst1; [exact Hc|].
    now apply brace_free_no_open, clean_brace_free.
  - rewrite andb_true_iff. intros [Hn Hr].
    destruct (String.eqb key n); cbn.
    + apply well_formed_lits; [|auto].
      now apply brace_free_no_open, clean_brace_free.
    + rewrite Hn. cbn. auto.
Qed.

Lemma render_subst1 look key v segs :
  render look (subst1 key v segs)
  = render (fun n => if String.eqb key n then Some v else look n) segs.
Proof.
  induction segs as [|[c|n] r IH]; cbn; [reflexivity|congruence|].
  destruct (String.eqb key n); cbn.
  - now rewrite render_lits, IH.
  - now rewrite IH.
Qed.

Lemma render_ext look1 look2 segs :
  (forall n, look1 n = look2 n) -> render look1 segs = render look2 segs.
Proof.
  intros H. induction segs as [|[c|n] r IH]; cbn; [reflexivity|congruence|].
  now rewrite H, IH.
Qed.

Lemma render_none segs : render (fun _ => None) segs = unparse segs.
Proof. induction segs as [|[c|n] r IH]; cbn; congruence. Qed.

(** The loop of [processTemplate] on a well-formed template, for clean
    values: every token of a supplied variable becomes the value. *)
Lemma processEntries_unparse es : forall segs,
  clean_entries es = true -> well_formed segs = true ->
  processEntries es (unparse segs) = render (lookup (strings es)) segs.
Proof.
  unfold processEntries.
  induction es as [|[k v] es IH]; intros segs He Hw; cbn.
  - now rewrite render_none.
  - cbn in He. rewrite !andb_true_iff in He. destruct He as [[Hk Hv] He].
    destruct v as [v| | |]; try discriminate Hv. cbn in Hv.
    rewrite replaceAll_unparse, <- unparse_subst1 by assumption.
    rewrite IH by auto using well_formed_subst1.
    rewrite render_subst1. now apply render_ext.
Qed.

(** The rendering of the specification, on a well-formed template. *)
Lemma render_spec_unparse sv segs :
  forallb (fun kv => brace_free (fst kv)) sv = true ->
  well_formed segs = true ->
  render_spec sv (unparse segs) = render (lookup sv) segs.
Proof.
  intros Hk Hw. unfold render_spec.
  apply scan_unparse; [| | | |exact Hw].
  - intros pre k v r Hb.
    induction sv as [|[k' v'] sv IH]; cbn [find_spec lookup]; [discriminate|].
    cbn in Hk. rewrite andb_true_iff in Hk. destruct Hk as [Hk' Hk].
    destruct (String.eqb_spec k' k) as [->|Hne].
    + intros [= ->]. now rewrite prefix_app.
    + intros L. destruct (prefix (token k') (token k +:+ r)) eqn:P; [|auto].
      apply token_prefix in P; [contradiction|assumption..].
  - intros pre k r Hb.
    induction sv as [|[k' v'] sv IH]; cbn [find_spec lookup]; [reflexivity|].
    cbn in Hk. rewrite andb_true_iff in Hk. destruct Hk as [Hk' Hk].
    destruct (String.eqb_spec k' k) as [->|Hne]; [discriminate|].
    intros L. destruct (prefix (token k') (token k +:+ r)) eqn:P; [|auto].
    apply token_prefix in P; [contradiction|assumption..].
  - intros pre c r Hc.
    induction sv as [|[k' v'] sv IH]; cbn [find_spec]; [reflexivity|].
    rewrite token_prefix_char by exact Hc. apply IH.
    cbn in Hk. rewrite andb_true_iff in Hk. tauto.
  - intros pre r Hr.
    induction sv as [|[k' v'] sv IH]; cbn [find_spec]; [reflexivity|].
    rewrite token_prefix_open by exact Hr. apply IH.
    cbn in Hk. rewrite andb_true_iff in Hk. tauto.
Qed.

Lemma clean_entries_keys es :
  clean_entries es = true ->
  forallb (fun kv => brace_free (fst kv)) (strings es) = true.
Proof.
  induction es as [|[k v] es IH]; cbn; [reflexivity|].
  rewrite !andb_true_iff. intros [[Hk _] He]. auto.
Qed.

(** *** Order of the entries *)

Lemma lookup_In sv n v :
  List.NoDup (List.map fst sv) -> (lookup sv n = Some v <-> In (n, v) sv).
Proof.
  induction sv as [|[k w] sv IH]; cbn; intros Hd.
  - split; [discriminate|tauto].
  - apply List.NoDup_cons_iff in Hd as [Hk Hd].
    destruct (String.eqb_spec k n) as [->|Hne]; split.
    + intros [= ->]. now left.
    + intros [[= ->]|Hin]; [reflexivity|].
      exfalso. apply Hk. apply in_map_iff. now exists (n, v).
    + intros L. right. now apply IH.
    + intros [[= -> ->]|Hin]; [contradiction|]. now apply IH.
Qed.

Lemma lookup_permutation a b n :
  List.NoDup (List.map fst a) -> Permutation a b -> lookup a n = lookup b n.
Proof.
  intros Hd Hp.
  assert (Hd' : List.NoDup (List.map fst b)).
  { eapply Permutation_NoDup; [|exact Hd]. now apply Permutation_map. }
  destruct (lookup a n) as [v|] eqn:La.
  - symmetry. apply lookup_In; [exact Hd'|].
    eapply Permutation_in; [exact Hp|]. now apply lookup_In.
  - destruct (lookup b n) as [v|] eqn:Lb; [|reflexivity].
    apply lookup_In in Lb; [|exact Hd'].
    apply Permutation_sym in Hp. eapply Permutation_in in Lb; [|exact Hp].
    apply lookup_In in Lb; [congruence|exact Hd].
Qed.

Lemma clean_entries_permutation a b :
  Permutation a b -> clean_entries a = true -> clean_entries b = true.
Proof.
  unfold clean_entries. rewrite !forallb_forall. intros Hp H x Hx.
  apply H. eapply Permutation_in; [|exact Hx]. now apply Permutation_sym.
Qed.

Lemma entries_keys_distinct vars : List.NoDup (List.map fst (strings (entries vars))).
Proof.
  cbn. repeat (constructor; [cbn; intuition discriminate|]). constructor.
Qed.

(** *** The tests of the repository *)

Example replaces_all_variables :
  processTemplate "Hello {{PROJECT_NAME}}, using {{PROVIDER}} with {{MODEL}}"
                  (test_vars "test-project")
  = "Hello test-project, using openai with gpt-4".
Proof. vm_compute. reflexivity. Qed.

Example replaces_every_occurrence :
  processTemplate "{{PROJECT_NAME}} and {{PROJECT_NAME}}" (test_vars "test")
  = "test and test".
Proof. vm_compute. reflexivity. Qed.

Example leaves_unknown_placeholder :
  processTemplate "{{PROJECT_NAME}} and {{UNKNOWN_VAR}}" (test_vars "test")
  = "test and {{UNKNOWN_VAR}}".
Proof. vm_compute. reflexivity. Qed.

(** A dollar sign in a value is read as a replacement pattern. *)
Example dollar_patterns :
  processTemplate "name: {{PROJECT_NAME}}" (test_vars "a$$b$&")
  = "name: a$b{{PROJECT_NAME}}".
Proof. vm_compute. reflexivity. Qed.

(** A value without braces can complete a placeholder that the content
    only has in two pieces. *)
Example splice_completes_placeholder :
  processTemplate "{{PROVIDER{{PROJECT_NAME}}PACKAGE}}" (test_vars "_")
  = "@ai-sdk/openai".
Proof. vm_compute. reflexivity. Qed.

(** C2 (the claim fails on the code at this input).  The replacements are
    made one variable after the other, each on the result of the one
    before: the value put in for [{{PROJECT_NAME}}] is itself rewritten
    when the loop reaches [MODEL].  The output is ["gpt-4"], not the
    value ["{{MODEL}}"] of the variable. *)
Lemma render_rewrites_inserted_value :
  processTemplate "{{PROJECT_NAME}}" nested_vars = "gpt-4" /\
  render_spec (strings (entries nested_vars)) "{{PROJECT_NAME}}" = "{{MODEL}}" /\
  processTemplate "{{PROJECT_NAME}}" nested_vars
    <> render_spec (strings (entries nested_vars)) "{{PROJECT_NAME}}".
Proof.
  repeat split; try (vm_compute; reflexivity).
  vm_compute. discriminate.
Qed.

(** C2, amended.  For a well-formed template (every [{{] of the text
    starts a placeholder token) and values without braces and dollar
    signs, [processTemplate] returns the content with every occurrence of
    each supplied variable's placeholder replaced by the variable's exact
    value, and all other text, the placeholders of other names included,
    unchanged. *)
Theorem render_well_formed_template segs vars :
  clean_entries (entries vars) = true ->
  well_formed segs = true ->
  processTemplate (unparse segs) vars
    = render_spec (strings (entries vars)) (unparse segs) /\
  processTemplate (unparse segs) vars
    = render (lookup (strings (entries vars))) segs.
Proof.
  intros Hc Hw. unfold processTemplate.
  rewrite processEntries_unparse, render_spec_unparse
    by auto using clean_entries_keys.
  split; reflexivity.
Qed.

Lemma render_well_formed_template_witness :
  clean_entries (entries (test_vars "test-project")) = true /\
  well_formed greeting = true /\
  (processTemplate (unparse greeting) (test_vars "test-project")
     = render_spec (strings (entries (test_vars "test-project"))) (unparse greeting) /\
   processTemplate (unparse greeting) (test_vars "test-project")
     = render (lookup (strings (entries (test_vars "test-project")))) greeting).
Proof.
  split; [reflexivity|]. split; [reflexivity|].
  apply (render_well_formed_template greeting (test_vars "test-project"));
    reflexivity.
Defined.

(** C6 (the claim fails on the code at this input).  With the entries in
    the reverse order, [MODEL] is handled before [PROJECT_NAME], and the
    value inserted for [{{PROJECT_NAME}}] stays as it is; in the order of
    the code it is rewritten. *)
Lemma render_depends_on_order :
  Permutation (rev (entries nested_vars)) (entries nested_vars) /\
  processEntries (rev (entries nested_vars)) "{{PROJECT_NAME}}" = "{{MODEL}}" /\
  processEntries (entries nested_vars) "{{PROJECT_NAME}}" = "gpt-4" /\
  processEntries (rev (entries nested_vars)) "{{PROJECT_NAME}}"
    <> processTemplate "{{PROJECT_NAME}}" nested_vars.
Proof.
  split; [apply Permutation_sym, Permutation_rev|].
  repeat split; try (vm_compute; reflexivity).
  vm_compute. discriminate.
Qed.

(** C6, amended.  For a well-formed template and values without braces
    and dollar signs, the replacements of the variables applied in any
    order give the result of [processTemplate]. *)
Theorem render_order_independent segs vars p :
  clean_entries (entries vars) = true ->
  well_formed segs = true ->
  Permutation p (entries vars) ->
  processEntries p (unparse segs) = processTemplate (unparse segs) vars.
Proof.
  intros Hc Hw Hp. unfold processTemplate.
  rewrite !processEntries_unparse; auto.
  - apply render_ext. intros n. symmetry.
    apply lookup_permutation; [apply entries_keys_distinct|].
    unfold strings. now apply Permutation_map, Permutation_sym.
  - eapply clean_entries_permutation; [|exact Hc]. now apply Permutation_sym.
Qed.

Lemma render_order_independent_witness :
  clean_entries (entries (test_vars "test-project")) = true /\
  well_formed greeting = true /\
  Permutation (rev (entries (test_vars "test-project")))
              (entries (test_vars "test-project")) /\
  processEntries (rev (entries (test_vars "test-project"))) (unparse greeting)
    = processTemplate (unparse greeting) (test_vars "test-project").
Proof.
  assert (P : Permutation (rev (entries (test_vars "test-project")))
                          (entries (test_vars "test-project")))
    by apply Permutation_sym, Permutation_rev.
  split; [reflexivity|]. split; [reflexivity|]. split; [exact P|].
  apply (render_order_independent greeting (test_vars "test-project") _
           eq_refl eq_refl P).
Defined.

End TemplateProps.

(** ** The project materializer *)

Module MaterializerProps.
Import JS Utils Generator MaterializerSpec.

(** *** Writes *)

Lemma write_all_other ws : forall m p,
  ~ In p (List.map fst ws) -> write_all ws m !! p = m !! p.
Proof.
  induction ws as [|[q c] ws IH]; intros m p Hp; cbn; [reflexivity|].
  cbn in Hp. rewrite IH by tauto.
  apply lookup_insert_ne. intros ->. tauto.
Qed.

Lemma write_all_in ws : forall m p c,
  List.NoDup (List.map fst ws) -> In (p, c) ws -> write_all ws m !! p = Some c.
Proof.
  induction ws as [|[q c'] ws IH]; intros m p c Hd Hin; cbn; [contradiction|].
  cbn in Hd. apply List.NoDup_cons_iff in Hd as [Hq Hd].
  destruct Hin as [[= -> ->]|Hin].
  - rewrite write_all_other by exact Hq. apply lookup_insert_eq.
  - now apply IH.
Qed.

Lemma find_write_In ws p c : find_write ws p = Some c -> In (p, c) ws.
Proof.
  induction ws as [|[q c'] ws IH]; cbn; [discriminate|].
  destruct (String.eqb_spec q p) as [->|]; [intros [= ->]|]; auto.
Qed.

Lemma find_write_None ws p : find_write ws p = None <-> ~ In p (List.map fst ws).
Proof.
  induction ws as [|[q c'] ws IH]; cbn; [tauto|].
  destruct (String.eqb_spec q p) as [->|]; [|tauto].
  split; [discriminate|tauto].
Qed.

Lemma write_all_lookup ws m p :
  List.NoDup (List.map fst ws) ->
  write_all ws m !! p
  = match find_write ws p with Some c => Some c | None => m !! p end.
Proof.
  intros Hd. destruct (find_write ws p) as [c|] eqn:F.
  - apply write_all_in; [exact Hd|]. now apply find_write_In.
  - apply write_all_other. now apply find_write_None.
Qed.

Lemma find_write_app a b p :
  find_write (a ++ b) p
  = match find_write a p with Some c => Some c | None => find_write b p end.
Proof.
  induction a as [|[q c] a IH]; cbn; [reflexivity|].
  now destruct (String.eqb q p).
Qed.

Lemma write_all_app a b m : write_all (a ++ b) m = write_all b (write_all a m).
Proof. apply fold_left_app. Qed.

(** *** Paths *)

Lemma join_inj d a b : join d a = join d b -> a = b.
Proof.
  unfold join. intros H. apply (inj (String.app d)) in H.
  now apply (inj (String.app "/")) in H.
Qed.

Lemma outputs_keys pkg d vars todo :
  List.map fst (outputs pkg d vars todo) = List.map (join d) (List.map snd todo).
Proof. unfold outputs. rewrite !List.map_map. reflexivity. Qed.

Lemma NoDup_join d names :
  List.NoDup names -> List.NoDup (List.map (join d) names).
Proof.
  intros H. apply Finite.Injective_map_NoDup; [|exact H].
  intros a b. apply join_inj.
Qed.

Lemma all_names_distinct : List.NoDup all_names.
Proof.
  unfold all_names. cbn.
  repeat (constructor; [cbn; intuition discriminate|]). constructor.
Qed.

Lemma find_output pkg d vars todo t f :
  List.NoDup (List.map snd todo) -> In (t, f) todo ->
  find_write (outputs pkg d vars todo) (join d f) = Some (rendered pkg vars t).
Proof.
  induction todo as [|[t' f'] todo IH]; cbn; intros Hd Hin; [contradiction|].
  apply List.NoDup_cons_iff in Hd as [Hf Hd].
  destruct Hin as [[= -> ->]|Hin]; [now rewrite String.eqb_refl|].
  destruct (String.eqb_spec (join d f') (join d f)) as [E|_]; [|auto].
  apply join_inj in E as ->. exfalso. apply Hf.
  apply in_map_iff. now exists (t, f).
Qed.

Lemma find_output_None pkg d vars todo p :
  (forall t f, In (t, f) todo -> p <> join d f) ->
  find_write (outputs pkg d vars todo) p = None.
Proof.
  intros H. apply find_write_None. rewrite outputs_keys, List.map_map.
  intros Hin. apply in_map_iff in Hin as [[t f] [E Hin]]. cbn in E.
  now apply (H t f).
Qed.

(** *** The loop over the manifest *)

Lemma files_writeFileToDest p c fs :
  files (writeFileToDest p c fs) = <[ p := c ]> (files fs).
Proof. unfold writeFileToDest. now destruct (negb _). Qed.

Lemma copy_all_ok pkg d vars todo : forall fs,
  all_readable pkg todo = true ->
  exists fs', copy_all pkg d vars todo fs = (fs', Normal tt) /\
              files fs' = write_all (outputs pkg d vars todo) (files fs).
Proof.
  induction todo as [|[t f] todo IH]; intros fs Hr; cbn.
  - eauto.
  - cbn in Hr. rewrite andb_true_iff in Hr. destruct Hr as [Ht Hr].
    unfold copyTemplateFile, rendered, readable in *.
    destruct (readTemplateFile pkg t) as [content|]; [|discriminate].
    destruct (IH (writeFileToDest (join d f) (processTemplate content vars) fs) Hr)
      as (fs' & -> & E).
    exists fs'. split; [reflexivity|]. now rewrite E, files_writeFileToDest.
Qed.

Lemma copy_all_fail pkg d vars pre t f post e : forall fs,
  all_readable pkg pre = true ->
  readTemplateFile pkg t = Throw e ->
  exists fs', copy_all pkg d vars (pre ++ (t, f) :: post) fs = (fs', Throw e) /\
              files fs' = write_all (outputs pkg d vars pre) (files fs).
Proof.
  induction pre as [|[t' f'] pre IH]; intros fs Hr Ht; cbn.
  - unfold copyTemplateFile. rewrite Ht. eauto.
  - cbn in Hr. rewrite andb_true_iff in Hr. destruct Hr as [Ht' Hr].
    unfold copyTemplateFile, rendered, readable in *.
    destruct (readTemplateFile pkg t') as [content|]; [|discriminate].
    destruct (IH (writeFileToDest (join d f') (processTemplate content vars) fs)
                 Hr Ht) as (fs' & -> & E).
    exists fs'. split; [reflexivity|]. now rewrite E, files_writeFileToDest.
Qed.

Lemma files_prepared d o fs : files (prepared d o fs) = files fs.
Proof. unfold prepared. now destruct (includeExamples o). Qed.

Lemma generateProject_ok pkg d o fs :
  all_readable pkg (manifest o) = true ->
  exists fs', generateProject pkg d o fs = (fs', Normal tt) /\
              files fs' = write_all (written pkg d o) (files fs).
Proof.
  intros Hr. unfold generateProject, written, env_file.
  fold (prepared d o fs).
  destruct (copy_all_ok pkg d (getTemplateVariables o) (manifest o)
              (prepared d o fs) Hr) as (fs1 & -> & E).
  rewrite files_prepared in E. rewrite write_all_app, <- E.
  destruct (credential o) as [key|]; eexists; (split; [reflexivity|]).
  - now rewrite files_writeFileToDest.
  - reflexivity.
Qed.

Lemma generateProject_fail pkg d o fs pre t f post e :
  manifest o = pre ++ (t, f) :: post ->
  all_readable pkg pre = true ->
  readTemplateFile pkg t = Throw e ->
  exists fs', generateProject pkg d o fs = (fs', Throw e) /\
              files fs' = write_all (outputs pkg d (getTemplateVariables o) pre)
                                    (files fs).
Proof.
  intros Hm Hr Ht. unfold generateProject. fold (prepared d o fs). rewrite Hm.
  destruct (copy_all_fail pkg d (getTemplateVariables o) pre t f post e
              (prepared d o fs) Hr Ht) as (fs1 & -> & E).
  rewrite files_prepared in E. eauto.
Qed.

Ltac distinct_names :=
  cbn; repeat (constructor; [cbn; intuition discriminate|]); constructor.

Lemma written_keys_distinct pkg d o : List.NoDup (List.map fst (written pkg d o)).
Proof.
  unfold written, env_file, manifest.
  rewrite List.map_app, outputs_keys.
  destruct (includeExamples o), (credential o) as [key|].
  - apply (NoDup_join d (List.map snd (core_files ++ example_files) ++ [".env"])).
    distinct_names.
  - apply (NoDup_join d (List.map snd (core_files ++ example_files))).
    distinct_names.
  - apply (NoDup_join d (List.map snd core_files ++ [".env"])).
    distinct_names.
  - apply (NoDup_join d (List.map snd core_files)).
    distinct_names.
Qed.

Lemma manifest_names_distinct o : List.NoDup (List.map snd (manifest o)).
Proof. unfold manifest. destruct (includeExamples o); distinct_names. Qed.

Lemma manifest_not_env o t f : In (t, f) (manifest o) -> f <> ".env".
Proof.
  unfold manifest. intros H ->.
  destruct (includeExamples o); cbn in H;
    repeat (destruct H as [H|H]; [discriminate H|]); exact H.
Qed.

(** The files after a run, path by path. *)
Lemma run_lookup pkg d o (m m' : gmap string string) p :
  m' = write_all (written pkg d o) m ->
  m' !! p = match find_write (written pkg d o) p with
            | Some c => Some c
            | None => m !! p
            end.
Proof. intros ->. apply write_all_lookup, written_keys_distinct. Qed.

Lemma find_written_entry pkg d o t f :
  In (t, f) (manifest o) ->
  find_write (written pkg d o) (join d f)
  = Some (rendered pkg (getTemplateVariables o) t).
Proof.
  intros H. unfold written. rewrite find_write_app.
  now rewrite (find_output _ _ _ _ t f (manifest_names_distinct o) H).
Qed.

Lemma find_env_file d o p :
  find_write (env_file d o) p
  = match credential o with
    | Some key => if String.eqb (join d ".env") p
                  then Some (env_content o key) else None
    | None => None
    end.
Proof. unfold env_file. now destruct (credential o). Qed.

Lemma find_written_env pkg d o :
  find_write (written pkg d o) (join d ".env")
  = match credential o with
    | Some key => Some (env_content o key)
    | None => None
    end.
Proof.
  unfold written. rewrite find_write_app, find_output_None, find_env_file.
  - destruct (credential o); [now rewrite String.eqb_refl | reflexivity].
  - intros t f H E. apply join_inj in E. symmetry in E.
    now apply manifest_not_env in H.
Qed.

Lemma find_written_other pkg d o p :
  (forall t f, In (t, f) (manifest o) -> p <> join d f) ->
  credential o = None \/ p <> join d ".env" ->
  find_write (written pkg d o) p = None.
Proof.
  intros Hm He. unfold written.
  rewrite find_write_app, find_output_None, find_env_file by exact Hm.
  destruct (credential o); [|reflexivity].
  destruct He as [He|He]; [discriminate He|].
  destruct (String.eqb_spec (join d ".env") p); [congruence | reflexivity].
Qed.

(** *** The claims *)

(** C7.  When the thirteen templates can be read, the run with
    [includeExamples = true] and the run with [includeExamples = false],
    on otherwise the same options, both succeed.  The first writes the
    thirteen files of the manifest, the second the ten core files, each
    with the rendering of its template; neither writes any other path
    (but for the secrets file [.env], when a credential is supplied; it
    is not part of the manifest).  The second run leaves the paths of the three
    example files as they were, and on every other path the two runs
    leave the same content. *)
Theorem examples_flag_only_drops_examples pkg d o fs :
  all_readable pkg (core_files ++ example_files) = true ->
  let vars := getTemplateVariables o in
  exists fs1 fs0,
    generateProject pkg d (with_examples true o) fs = (fs1, Normal tt) /\
    generateProject pkg d (with_examples false o) fs = (fs0, Normal tt) /\
    List.length (manifest (with_examples true o)) = 13 /\
    List.length (manifest (with_examples false o)) = 10 /\
    (forall t f, In (t, f) (core_files ++ example_files) ->
       files fs1 !! join d f = Some (rendered pkg vars t)) /\
    (forall t f, In (t, f) core_files ->
       files fs0 !! join d f = Some (rendered pkg vars t)) /\
    (forall p, (forall t f, In (t, f) (core_files ++ example_files) -> p <> join d f) ->
       credential o = None \/ p <> join d ".env" ->
       files fs1 !! p = files fs !! p) /\
    (forall p, (forall t f, In (t, f) core_files -> p <> join d f) ->
       credential o = None \/ p <> join d ".env" ->
       files fs0 !! p = files fs !! p) /\
    (forall t f, In (t, f) example_files ->
       files fs0 !! join d f = files fs !! join d f) /\
    (forall p, (forall t f, In (t, f) example_files -> p <> join d f) ->
       files fs0 !! p = files fs1 !! p).
Proof.
  intros Hr vars.
  assert (M0 : manifest (with_examples false o) = core_files)
    by apply List.app_nil_r.
  assert (Hr0 : all_readable pkg (manifest (with_examples false o)) = true).
  { rewrite M0. unfold all_readable in *. rewrite forallb_app in Hr.
    now apply andb_true_iff in Hr as [Hr _]. }
  destruct (generateProject_ok pkg d (with_examples true o) fs Hr) as (fs1 & E1 & F1).
  destruct (generateProject_ok pkg d (with_examples false o) fs Hr0) as (fs0 & E0 & F0).
  pose proof (fun p => run_lookup _ _ _ _ _ p F1) as L1.
  pose proof (fun p => run_lookup _ _ _ _ _ p F0) as L0.
  exists fs1, fs0. repeat split; try assumption.
  - intros t f H. rewrite L1. now rewrite (find_written_entry _ _ _ t f).
  - intros t f H. rewrite L0. rewrite (find_written_entry _ _ _ t f);
      [reflexivity | now rewrite M0].
  - intros p Hp He. rewrite L1. now rewrite find_written_other.
  - intros p Hp He. rewrite L0. rewrite find_written_other;
      [reflexivity | now rewrite M0 | exact He].
  - intros t f H. rewrite L0. rewrite find_written_other; [reflexivity| |].
    + rewrite M0. intros t' f' H' E. apply join_inj in E as ->.
      cbn in H, H'. intuition congruence.
    + right. intros E. apply join_inj in E as ->. cbn in H. intuition congruence.
  - intros p Hp. rewrite L0, L1. unfold written.
    change (manifest (with_examples true o)) with (core_files ++ example_files).
    rewrite M0. unfold outputs at 2. rewrite List.map_app.
    fold (outputs pkg d (getTemplateVariables (with_examples true o)) core_files).
    fold (outputs pkg d (getTemplateVariables (with_examples true o)) example_files).
    rewrite !find_write_app.
    rewrite (find_output_None _ _ _ example_files) by exact Hp.
    change (getTemplateVariables (with_examples false o)) with vars.
    change (getTemplateVariables (with_examples true o)) with vars.
    change (env_file d (with_examples false o)) with (env_file d o).
    change (env_file d (with_examples true o)) with (env_file d o).
    now destruct (find_write (outputs pkg d vars core_files) p).
Qed.

Lemma examples_flag_only_drops_examples_witness :
  all_readable (sample_package (core_files ++ example_files))
               (core_files ++ example_files) = true /\
  exists fs1 fs0,
    generateProject (sample_package (core_files ++ example_files)) "p1"
                    (with_examples true sample_options) empty_fs = (fs1, Normal tt) /\
    generateProject (sample_package (core_files ++ example_files)) "p1"
                    (with_examples false sample_options) empty_fs = (fs0, Normal tt) /\
    files fs1 !! "p1/src/examples/basic.ts"
      = Some "[p1/@ai-sdk/groq] src/examples/basic.ts" /\
    files fs0 !! "p1/src/examples/basic.ts" = None /\
    files fs0 !! "p1/package.json" = files fs1 !! "p1/package.json".
Proof.
  assert (R : all_readable (sample_package (core_files ++ example_files))
                           (core_files ++ example_files) = true)
    by (vm_compute; reflexivity).
  split; [exact R|].
  destruct (examples_flag_only_drops_examples
              (sample_package (core_files ++ example_files)) "p1"
              sample_options empty_fs R)
    as (fs1 & fs0 & E1 & E0 & _ & _ & W1 & _ & _ & _ & X0 & S).
  exists fs1, fs0. split; [exact E1|]. split; [exact E0|]. split; [|split].
  - apply (W1 "src/examples/basic.ts.template" "src/examples/basic.ts").
    cbn. tauto.
  - apply (X0 "src/examples/basic.ts.template" "src/examples/basic.ts").
    cbn. tauto.
  - apply S. intros t f H. cbn in H.
    repeat (destruct H as [H|H]; [injection H as <- <-; discriminate|]).
    contradiction.
Defined.

(** C8.  A run that finds all its templates succeeds, and writes the
    secrets file [.env] exactly when a credential is supplied (an [apiKey]
    that is neither absent nor empty): its whole content is then the
    environment-variable name of the provider, an equals sign, the
    credential and one line feed; without a credential the path [.env] is
    left as it was. *)
Theorem env_file_iff_credential pkg d o fs :
  all_readable pkg (manifest o) = true ->
  exists fs',
    generateProject pkg d o fs = (fs', Normal tt) /\
    files fs' !! join d ".env"
    = match credential o with
      | Some key =>
          Some (to_string (getProviderEnvVar (provider o)) +:+ "=" +:+ key +:+ nl)
      | None => files fs !! join d ".env"
      end.
Proof.
  intros Hr.
  destruct (generateProject_ok pkg d o fs Hr) as (fs' & E & F).
  exists fs'. split; [exact E|].
  rewrite (run_lookup _ _ _ _ _ (join d ".env") F), find_written_env.
  now destruct (credential o).
Qed.

Lemma env_file_iff_credential_witness :
  all_readable (sample_package (core_files ++ example_files))
               (manifest sample_options) = true /\
  exists fs',
    generateProject (sample_package (core_files ++ example_files)) "p1"
                    sample_options empty_fs = (fs', Normal tt) /\
    files fs' !! "p1/.env" = Some ("GROQ_API_KEY=abc123" +:+ nl).
Proof.
  split; [vm_compute; reflexivity|].
  apply (env_file_iff_credential
           (sample_package (core_files ++ example_files)) "p1"
           sample_options empty_fs).
  vm_compute. reflexivity.
Defined.

(** C9.  If the template of a manifest entry does not exist under the
    template root, while those of the entries before it can be read, the
    run throws the error [Template file not found].  The files of the
    earlier entries are then on disk with their rendered content, and no
    other path has been written: nothing is rolled back, and neither the
    later entries nor the secrets file are produced. *)
Theorem missing_template_aborts pkg d o fs pre t f post :
  manifest o = pre ++ (t, f) :: post ->
  all_readable pkg pre = true ->
  existsSync (tree pkg) (join (TEMPLATE_DIR pkg) t) = false ->
  exists fs',
    generateProject pkg d o fs = (fs', Throw (not_found pkg t)) /\
    (forall t' f', In (t', f') pre ->
       files fs' !! join d f'
       = Some (rendered pkg (getTemplateVariables o) t')) /\
    (forall p, (forall t' f', In (t', f') pre -> p <> join d f') ->
       files fs' !! p = files fs !! p).
Proof.
  intros Hm Hr Ht.
  assert (Ht' : readTemplateFile pkg t = Throw (not_found pkg t)).
  { unfold readTemplateFile. now rewrite Ht. }
  destruct (generateProject_fail pkg d o fs pre t f post _ Hm Hr Ht')
    as (fs' & E & F).
  assert (Hd : List.NoDup (List.map snd pre)).
  { pose proof (manifest_names_distinct o) as A. rewrite Hm, List.map_app in A.
    now apply List.NoDup_app_remove_r in A. }
  assert (Hk : List.NoDup
                 (List.map fst (outputs pkg d (getTemplateVariables o) pre))).
  { rewrite outputs_keys. now apply NoDup_join. }
  exists fs'. split; [exact E|]. split.
  - intros t' f' H. rewrite F, write_all_lookup by exact Hk.
    now rewrite (find_output _ _ _ _ t' f' Hd H).
  - intros p Hp. rewrite F, write_all_lookup by exact Hk.
    now rewrite find_output_None.
Qed.

Lemma missing_template_aborts_witness :
  manifest sample_options
    = before_readme ++ ("README.md.template", "README.md") :: after_readme /\
  all_readable (sample_package (before_readme ++ after_readme)) before_readme = true /\
  existsSync (tree (sample_package (before_readme ++ after_readme)))
    (join (TEMPLATE_DIR (sample_package (before_readme ++ after_readme)))
          "README.md.template") = false /\
  exists fs',
    generateProject (sample_package (before_readme ++ after_readme)) "p1"
                    sample_options empty_fs
    = (fs', Throw (Err "Template file not found: /opt/create-fred/dist/templates/README.md.template")) /\
    files fs' !! "p1/package.json" = Some "[p1/@ai-sdk/groq] package.json" /\
    files fs' !! "p1/README.md" = None /\
    files fs' !! "p1/src/index.ts" = None /\
    files fs' !! "p1/.env" = None.
Proof.
  assert (M : manifest sample_options
              = before_readme ++ ("README.md.template", "README.md") :: after_readme)
    by reflexivity.
  assert (R : all_readable (sample_package (before_readme ++ after_readme))
                           before_readme = true) by (vm_compute; reflexivity).
  assert (X : existsSync (tree (sample_package (before_readme ++ after_readme)))
                (join (TEMPLATE_DIR (sample_package (before_readme ++ after_readme)))
                      "README.md.template") = false) by (vm_compute; reflexivity).
  split; [exact M|]. split; [exact R|]. split; [exact X|].
  destruct (missing_template_aborts
              (sample_package (before_readme ++ after_readme)) "p1"
              sample_options empty_fs before_readme
              "README.md.template" "README.md" after_readme M R X)
    as (fs' & E & W & O).
  assert (N : forall p, (forall t' f', In (t', f') before_readme -> p <> join "p1" f') ->
                        files fs' !! p = None).
  { intros p Hp. rewrite (O p Hp). apply lookup_empty. }
  exists fs'. split; [exact E|]. split; [|repeat split].
  - apply (W "package.json.template" "package.json"). cbn. tauto.
  - apply N. intros t' f' H. cbn in H.
    repeat (destruct H as [H|H]; [injection H as <- <-; discriminate|]).
    contradiction.
  - apply N. intros t' f' H. cbn in H.
    repeat (destruct H as [H|H]; [injection H as <- <-; discriminate|]).
    contradiction.
  - apply N. intros t' f' H. cbn in H.
    repeat (destruct H as [H|H]; [injection H as <- <-; discriminate|]).
    contradiction.
Defined.

End MaterializerProps.

(** ** The project name *)

Module ValidationProps.
Import JS ProjectName ValidationSpec.





Example accepts_plain_names :
  valid (validateProjectName "my-project") = true /\
  valid (validateProjectName "my_project") = true /\
  valid (validateProjectName "myProject123") = true.
Proof. repeat split. Qed.

Example rejects_bad_names :
  error (validateProjectName "") = Some "Project name cannot be empty" /\
  error (validateProjectName "my<project>")
    = Some "Project name contains invalid characters" /\
  error (validateProjectName "con") = Some "Project name is a reserved name".
Proof. repeat split. Qed.


Lemma no_invalid_none_of (bad : ascii -> bool) s :
  (forall c, bad c = true -> invalid_char c = true) ->
  has_invalid_char s = false -> none_of bad s = true.
Proof.
  intros Hb. induction s as [|c r IH]; cbn; [reflexivity|].
  rewrite orb_false_iff. intros [Hc Hr]. rewrite IH by exact Hr.
  destruct (bad c) eqn:E; [|reflexivity].
  apply Hb in E. congruence.
Qed.

Lemma json_escaped_invalid c : json_escaped c = true -> invalid_char c = true.
Proof.
  destruct c as [[] [] [] [] [] [] [] []]; vm_compute; auto.
Qed.

Lemma separator_invalid c : separator c = true -> invalid_char c = true.
Proof.
  destruct c as [[] [] [] [] [] [] [] []]; vm_compute; auto.
Qed.

(** X2.  An accepted project name is not empty, contains no code unit
    that a JSON string literal would have to escape (double quote,
    backslash, control character), and contains no path separator. *)
Theorem accepted_name_is_safe name :
  valid (validateProjectName name) = true ->
  name <> EmptyString /\
  none_of json_escaped name = true /\
  none_of separator name = true.
Proof.
  unfold validateProjectName.
  destruct name as [|c r]; [discriminate|].
  destruct (_ || _); [discriminate|].
  destruct (has_invalid_char (String c r)) eqn:H; [discriminate|].
  intros _. split; [discriminate|].
  split; apply no_invalid_none_of;
    auto using json_escaped_invalid, separator_invalid.
Qed.

Lemma accepted_name_is_safe_witness :
  valid (validateProjectName "my-fred-project") = true /\
  ("my-fred-project" <> EmptyString /\
   none_of json_escaped "my-fred-project" = true /\
   none_of separator "my-fred-project" = true).
Proof.
  split; [reflexivity|].
  apply (accepted_name_is_safe "my-fred-project"). reflexivity.
Defined.

End ValidationProps.

(** ** The provider registry, continued *)

Module RegistryMoreProps.
Import JS Utils RegistrySpec RegistryMoreSpec RegistryProps.

#[local] Arguments String.append !s1 s2 : simpl nomatch.

Lemma upper_unit_not_lower c : is_lower (upper_unit c) = false.
Proof.
  unfold upper_unit. destruct (is_lower c) eqn:E; [|exact E].
  destruct c as [[] [] [] [] [] [] [] []]; vm_compute in E |- *; congruence.
Qed.

Lemma lower_upper_unit c : lower_unit (upper_unit c) = lower_unit c.
Proof. destruct c as [[] [] [] [] [] [] [] []]; reflexivity. Qed.

Lemma upper_lower_unit c : upper_unit (lower_unit c) = upper_unit c.
Proof. destruct c as [[] [] [] [] [] [] [] []]; reflexivity. Qed.

Lemma toLowerCase_toUpperCase s : toLowerCase (toUpperCase s) = toLowerCase s.
Proof.
  induction s as [|c r IH]; [reflexivity|].
  cbn. now rewrite lower_upper_unit, <- IH.
Qed.

Lemma toUpperCase_toLowerCase s : toUpperCase (toLowerCase s) = toUpperCase s.
Proof.
  induction s as [|c r IH]; [reflexivity|].
  cbn. now rewrite upper_lower_unit, <- IH.
Qed.

Lemma toUpperCase_idem s : toUpperCase (toUpperCase s) = toUpperCase s.
Proof.
  induction s as [|c r IH]; [reflexivity|].
  cbn. f_equal; [|exact IH].
  unfold upper_unit at 1. now rewrite upper_unit_not_lower.
Qed.

Lemma no_lower_toUpperCase s : no_lower (toUpperCase s) = true.
Proof.
  induction s as [|c r IH]; [reflexivity|].
  cbn. now rewrite upper_unit_not_lower, IH.
Qed.

Lemma no_lower_app a b :
  no_lower a = true -> no_lower b = true -> no_lower (a +:+ b) = true.
Proof.
  intros Ha Hb. induction a as [|c r IH]; [exact Hb|].
  cbn in Ha |- *. apply andb_true_iff in Ha as [Hc Hr].
  now rewrite Hc, IH.
Qed.

Lemma own_In (o : obj) k v : own o k = Some v -> In (k, v) o.
Proof.
  induction o as [|[k' v'] r IH]; cbn; [discriminate|].
  destruct (String.eqb_spec k' k) as [->|]; [intros [= ->]|]; auto.
Qed.

(** Every value of a map satisfies a test that all its entries pass. *)
Lemma own_forall (P : string -> bool) (o : obj) k v :
  forallb (fun kv => P (snd kv)) o = true -> own o k = Some v -> P v = true.
Proof.
  intros H Hk. rewrite forallb_forall in H.
  exact (H (k, v) (own_In _ _ _ Hk)).
Qed.

Lemma get_plain o x :
  plain x = true ->
  get o (toLowerCase x)
  = match own o (toLowerCase x) with Some v => VStr v | None => VUndefined end.
Proof.
  unfold plain, get. destruct (own o (toLowerCase x)); [reflexivity|].
  now destruct (inherited (toLowerCase x)).
Qed.

(** X3.  For every identifier that does not lower-case to [constructor]
    or [__proto__], the registry answers with strings: the package name
    starts with [@ai-sdk/], the environment-variable name is not empty
    and has no lower-case ASCII letter, and the default model is not
    empty. *)
Theorem registry_answers_well_formed x :
  plain x = true ->
  (exists s, getProviderPackageName x = VStr s /\ startsWith s "@ai-sdk/" = true) /\
  (exists s, getProviderEnvVar x = VStr s /\ s <> EmptyString /\ no_lower s = true) /\
  (exists s, getDefaultModel x = VStr s /\ s <> EmptyString).
Proof.
  intros Hp.
  unfold getProviderPackageName, getProviderEnvVar, getDefaultModel.
  rewrite !get_plain by exact Hp. repeat split.
  - destruct (own providerMap (toLowerCase x)) as [v|] eqn:E.
    + assert (A : (startsWith v "@ai-sdk/" && nonempty v) = true).
      { apply (own_forall (fun v => startsWith v "@ai-sdk/" && nonempty v)
                 providerMap _ _ eq_refl E). }
      apply andb_true_iff in A as [A1 A2].
      exists v. destruct v; [discriminate A2|]. auto.
    + eexists. split; reflexivity.
  - destruct (own envMap (toLowerCase x)) as [v|] eqn:E.
    + assert (A : (no_lower v && nonempty v) = true).
      { apply (own_forall (fun v => no_lower v && nonempty v) envMap _ _ eq_refl E). }
      apply andb_true_iff in A as [A1 A2].
      exists v. destruct v; [discriminate A2|]. repeat split; auto; discriminate.
    + exists (toUpperCase x +:+ "_API_KEY"). cbn [js_or]. repeat split.
      * now destruct (toUpperCase x).
      * apply no_lower_app; [apply no_lower_toUpperCase | reflexivity].
  - destruct (own modelMap (toLowerCase x)) as [v|] eqn:E.
    + assert (A : nonempty v = true)
        by apply (own_forall nonempty modelMap _ _ eq_refl E).
      exists v. destruct v; [discriminate A|]. split; [reflexivity | discriminate].
    + eexists. split; [reflexivity | discriminate].
Qed.

Lemma registry_answers_well_formed_witness :
  plain "Bedrock" = true /\
  ((exists s, getProviderPackageName "Bedrock" = VStr s
              /\ startsWith s "@ai-sdk/" = true) /\
   (exists s, getProviderEnvVar "Bedrock" = VStr s
              /\ s <> EmptyString /\ no_lower s = true) /\
   (exists s, getDefaultModel "Bedrock" = VStr s /\ s <> EmptyString)).
Proof.
  split; [reflexivity|].
  apply (registry_answers_well_formed "Bedrock"). reflexivity.
Defined.

Lemma knows_keys (o : obj) k :
  knows o k = existsb (String.eqb k) (List.map fst o).
Proof.
  unfold knows. induction o as [|[k' v] r IH]; cbn; [reflexivity|].
  rewrite (String.eqb_sym k k'). destruct (String.eqb k' k); [reflexivity|].
  exact IH.
Qed.

(** X4.  The three maps of the registry know the same identifiers: an
    identifier has a package name of its own exactly when it has an
    environment variable of its own, and exactly when it has a default
    model of its own. *)
Theorem registry_maps_agree k :
  knows providerMap k = knows envMap k /\
  knows envMap k = knows modelMap k.
Proof. rewrite !knows_keys. split; reflexivity. Qed.

(** X5.  For every ASCII identifier, supported or not, each of the three
    registry functions gives the same result for the identifier, for its
    upper-cased form and for its lower-cased form.  (Case mapping is
    modelled on the ASCII letters, hence the restriction.) *)
Theorem registry_case_insensitive_everywhere x :
  ascii_only x = true ->
  case_insensitive getProviderPackageName x /\
  case_insensitive getProviderEnvVar x /\
  case_insensitive getDefaultModel x.
Proof.
  intros _.
  unfold case_insensitive, getProviderPackageName, getProviderEnvVar,
    getDefaultModel.
  now rewrite !toLowerCase_toUpperCase, !toLowerCase_idem,
    !toUpperCase_toLowerCase, !toUpperCase_idem.
Qed.

Lemma registry_case_insensitive_everywhere_witness :
  ascii_only "My-Provider" = true /\
  (case_insensitive getProviderPackageName "My-Provider" /\
   case_insensitive getProviderEnvVar "My-Provider" /\
   case_insensitive getDefaultModel "My-Provider").
Proof.
  split; [reflexivity|].
  apply (registry_case_insensitive_everywhere "My-Provider"). reflexivity.
Defined.

End RegistryMoreProps.

(** ** The model fetcher, continued *)

Module FetcherMoreProps.
Import JS ModelFetcher FetcherSpec FetcherMoreSpec RegistryProps FetcherProps.

(** *** The adapters and their requests *)

Lemma adapter_listing p a apiKey :
  adapter_for p = Some a -> p <> "anthropic" ->
  exists label url authorization field chain,
    endpoint p apiKey = Some (label, url, authorization) /\
    ends_in_sort chain /\
    forall net, a net apiKey = listing label url authorization field chain net.
Proof.
  unfold adapter_for, endpoint.
  repeat match goal with
  | |- context [String.eqb p ?s] => destruct (String.eqb_spec p s) as [->|?]
  end; intros H; inversion H; subst; clear H; intros Hp; try congruence;
  try discriminate.
  all: unfold fetchOpenAIModels, fetchGroqModels, fetchGoogleModels,
         fetchMistralModels, fetchCohereModels, fetchFireworksModels,
         fetchXaiModels, fetchPerplexityModels.
  all: match goal with
       | |- context [listing ?l ?u ?h ?f ?c] => exists l, u, h, f, c
       end; (split; [reflexivity|]); (split; [chain_sort | reflexivity]).
Qed.

Lemma listing_one_request label url authorization field chain net1 net2 :
  net1 url authorization = net2 url authorization ->
  listing label url authorization field chain net1
  = listing label url authorization field chain net2.
Proof. unfold listing. unbind. now intros ->. Qed.

(** X6.  An adapter with a listing endpoint looks at the transport
    through one request only, the one of [endpoint]: two transports that
    answer this request alike give the same result.  The credential is in
    the [Authorization] header ([Bearer]), except for Google, where it is
    in the query of the URL.  The Anthropic adapter makes no request. *)
Theorem adapter_makes_one_request p a apiKey :
  adapter_for p = Some a ->
  (p = "anthropic" /\ forall net1 net2, a net1 apiKey = a net2 apiKey) \/
  (exists label url authorization,
     endpoint p apiKey = Some (label, url, authorization) /\
     (authorization = Some ("Bearer " +:+ apiKey) \/
      p = "google" /\ authorization = None) /\
     forall net1 net2,
       net1 url authorization = net2 url authorization ->
       a net1 apiKey = a net2 apiKey).
Proof.
  intros Ha. destruct (String.eqb_spec p "anthropic") as [->|Hp].
  - left. cbn in Ha. inversion Ha; subst. split; reflexivity.
  - right.
    destruct (adapter_listing p a apiKey Ha Hp)
      as (label & url & au & field & chain & E & _ & H).
    exists label, url, au. split; [exact E|]. split.
    + unfold endpoint in E.
      repeat match type of E with
      | context [String.eqb p ?s] =>
          destruct (String.eqb_spec p s) as [->|?]
      end; inversion E; subst; auto.
    + intros net1 net2 Hn. rewrite !H. now apply listing_one_request.
Qed.

Lemma adapter_makes_one_request_witness :
  adapter_for "groq" = Some fetchGroqModels /\
  ((("groq" : string) = "anthropic" /\
    forall net1 net2, fetchGroqModels net1 "k" = fetchGroqModels net2 "k") \/
   (exists label url authorization,
      endpoint "groq" "k" = Some (label, url, authorization) /\
      (authorization = Some ("Bearer " +:+ "k") \/
       ("groq" : string) = "google" /\ authorization = None) /\
      forall net1 net2,
        net1 url authorization = net2 url authorization ->
        fetchGroqModels net1 "k" = fetchGroqModels net2 "k")).
Proof.
  split; [reflexivity|].
  apply (adapter_makes_one_request "groq" fetchGroqModels "k"). reflexivity.
Defined.

(** X7.  When the request of an adapter is rejected, or answered with a
    non-success status, the adapter throws an error whose message names
    the provider and keeps the cause: the message of the rejection, or
    the status code and status text. *)
Theorem adapter_error_message p a apiKey label url authorization net :
  adapter_for p = Some a ->
  endpoint p apiKey = Some (label, url, authorization) ->
  (forall e, net url authorization = Throw e ->
     a net apiKey = Throw (rethrown label (message e))) /\
  (forall r, net url authorization = Normal r -> ok r = false ->
     a net apiKey = Throw (rethrown label (status_cause label r))).
Proof.
  intros Ha E.
  assert (Hp : p <> "anthropic") by (intros ->; discriminate E).
  destruct (adapter_listing p a apiKey Ha Hp)
    as (label' & url' & au' & field & chain & E' & _ & H).
  rewrite E in E'. inversion E'; subst; clear E'.
  split; intros x Hx; [|intros Hok]; rewrite H; unfold listing, try_catch; unbind;
    rewrite Hx; [reflexivity|]. now rewrite Hok.
Qed.

Lemma adapter_error_message_witness :
  adapter_for "groq" = Some fetchGroqModels /\
  endpoint "groq" "k"
    = Some ("Groq", "https://api.groq.com/openai/v1/models", bearer "k") /\
  (forall e, offline "https://api.groq.com/openai/v1/models" (bearer "k") = Throw e ->
     fetchGroqModels offline "k" = Throw (rethrown "Groq" (message e))) /\
  (forall r, offline "https://api.groq.com/openai/v1/models" (bearer "k") = Normal r ->
     ok r = false ->
     fetchGroqModels offline "k" = Throw (rethrown "Groq" (status_cause "Groq" r))).
Proof.
  split; [reflexivity|]. split; [reflexivity|].
  apply (adapter_error_message "groq" fetchGroqModels "k"); reflexivity.
Defined.

(** X8.  The adapters cover nine of the registry's providers: every
    identifier with an adapter is in the supported set, and for an
    identifier without an adapter the result is [null] on every
    transport. *)
Theorem adapters_within_registry p :
  (forall a, adapter_for p = Some a -> In p Utils.supported) /\
  (adapter_for (toLowerCase p) = None ->
   forall net apiKey, fetchModelsFromProvider net p apiKey = Normal None).
Proof.
  split.
  - unfold adapter_for.
    repeat match goal with
    | |- context [String.eqb p ?s] => destruct (String.eqb_spec p s) as [->|?]
    end; intros a H; try discriminate H; cbn; tauto.
  - intros H net apiKey. unfold fetchModelsFromProvider. now rewrite H.
Qed.

(** X9.  The dispatch is case-insensitive: for an ASCII identifier, the
    identifier, its lower-cased and its upper-cased form give the same
    result on every transport and credential. *)
Theorem fetchModels_case_insensitive net p apiKey :
  RegistryMoreSpec.ascii_only p = true ->
  fetchModelsFromProvider net (toLowerCase p) apiKey
    = fetchModelsFromProvider net p apiKey /\
  fetchModelsFromProvider net (toUpperCase p) apiKey
    = fetchModelsFromProvider net p apiKey.
Proof.
  intros _. unfold fetchModelsFromProvider.
  now rewrite toLowerCase_idem, RegistryMoreProps.toLowerCase_toUpperCase.
Qed.

Lemma fetchModels_case_insensitive_witness :
  RegistryMoreSpec.ascii_only "OpenAI" = true /\
  fetchModelsFromProvider (answering openai_body) (toLowerCase "OpenAI") "k"
    = fetchModelsFromProvider (answering openai_body) "OpenAI" "k" /\
  fetchModelsFromProvider (answering openai_body) (toUpperCase "OpenAI") "k"
    = fetchModelsFromProvider (answering openai_body) "OpenAI" "k".
Proof.
  split; [reflexivity|].
  apply (fetchModels_case_insensitive (answering openai_body) "OpenAI" "k").
  reflexivity.
Defined.

(** X10.  For Anthropic the result is decided by the shape of the
    credential alone, on every transport: the curated list when the
    credential starts with [sk-ant-], and [null] otherwise (the error
    about the key format is swallowed). *)
Theorem anthropic_checks_key_shape net p apiKey :
  toLowerCase p = "anthropic" ->
  fetchModelsFromProvider net p apiKey
  = if startsWith apiKey "sk-ant-" then Normal (Some anthropic_models)
    else Normal None.
Proof.
  intros Hp. unfold fetchModelsFromProvider. rewrite Hp.
  change (adapter_for "anthropic") with (Some fetchAnthropicModels).
  unfold fetchAnthropicModels, try_catch. unbind.
  now destruct (startsWith apiKey "sk-ant-").
Qed.

Lemma anthropic_checks_key_shape_witness :
  toLowerCase "Anthropic" = "anthropic" /\
  fetchModelsFromProvider offline "Anthropic" "sk-wrong"
  = if startsWith "sk-wrong" "sk-ant-" then Normal (Some anthropic_models)
    else Normal None.
Proof.
  split; [reflexivity|].
  apply (anthropic_checks_key_shape offline "Anthropic" "sk-wrong"). reflexivity.
Defined.

(** *** What the returned list contains *)

Lemma filterM_In (f : jsval -> completion bool) l l' :
  filterM f l = Normal l' ->
  forall x, In x l' -> In x l /\ f x = Normal true.
Proof.
  revert l'. induction l as [|y r IH]; cbn; intros l' H x Hx.
  - inversion H; subst. contradiction.
  - unbind. destruct (f y) as [keep|] eqn:E; [|discriminate].
    destruct (filterM f r) as [ys|]; [|discriminate].
    inversion H; subst; clear H. specialize (IH ys eq_refl x).
    destruct keep; [destruct Hx as [<-|Hx]|]; auto; tauto.
Qed.

Lemma mapM_In (f : jsval -> completion jsval) l l' :
  mapM f l = Normal l' ->
  forall y, In y l' -> exists x, In x l /\ f x = Normal y.
Proof.
  revert l'. induction l as [|x r IH]; cbn; intros l' H y Hy.
  - inversion H; subst. contradiction.
  - unbind. destruct (f x) as [z|] eqn:E; [|discriminate].
    destruct (mapM f r) as [zs|]; [|discriminate].
    inversion H; subst; clear H. destruct Hy as [<-|Hy]; [eauto|].
    destruct (IH zs eq_refl y Hy) as [x' [Hx' Hf]]. eauto.
Qed.

Lemma insert_by_perm k v l : Permutation (insert_by k v l) ((k, v) :: l).
Proof.
  induction l as [|[k' v'] r IH]; cbn; [reflexivity|].
  destruct (String.leb k k'); [reflexivity|].
  rewrite IH. apply perm_swap.
Qed.

Lemma isort_perm l : Permutation (isort l) l.
Proof.
  induction l as [|[k v] r IH]; cbn; [reflexivity|].
  rewrite insert_by_perm. now constructor.
Qed.

Lemma split_undefined (l : list jsval) :
  Permutation l (List.filter (fun v => negb (is_undefined v)) l
                 ++ List.filter is_undefined l).
Proof.
  induction l as [|x r IH]; cbn; [reflexivity|].
  destruct (is_undefined x); cbn.
  - rewrite <- Permutation_middle. now constructor.
  - now constructor.
Qed.

Lemma combine_values (ks : list string) (l : list jsval) :
  List.length ks = List.length l -> List.map snd (combine ks l) = l.
Proof.
  revert l. induction ks as [|k ks IH]; intros [|x l] H; cbn in *;
    try discriminate; [reflexivity|].
  f_equal. apply IH. congruence.
Qed.

Lemma mapM_length (f : jsval -> completion string) l ks :
  mapM f l = Normal ks -> List.length ks = List.length l.
Proof.
  intros H. apply mapM_keys in H. symmetry.
  induction H; cbn; congruence.
Qed.

(** [sort()] only reorders. *)
Lemma array_sort_perm l l' : array_sort l = Normal l' -> Permutation l l'.
Proof.
  unfold array_sort. unbind.
  set (defined := List.filter (fun v => negb (is_undefined v)) l).
  set (undefs := List.filter is_undefined l).
  pose proof (split_undefined l) as P. fold defined undefs in P.
  destruct (List.length defined <? 2)%nat.
  - intros H. inversion H; subst. exact P.
  - destruct (mapM toStringV defined) as [ks|] eqn:K; [|discriminate].
    intros H. inversion H; subst; clear H. rewrite P.
    apply Permutation_app_tail.
    rewrite <- (combine_values ks defined) at 1
      by now apply (mapM_length toStringV).
    apply Permutation_map, Permutation_sym, isort_perm.
Qed.

Lemma listing_success label url authorization field chain net l :
  listing label url authorization field chain net = Normal (Some l) ->
  exists r data d,
    net url authorization = Normal r /\ ok r = true /\
    json r = Normal data /\ get_prop data field = Normal d /\
    chain d = Normal l.
Proof.
  unfold listing, try_catch, optional. unbind.
  destruct (net url authorization) as [r|] eqn:Hn; [|discriminate].
  destruct (ok r) eqn:Hok; cbn; [|discriminate].
  destruct (json r) as [data|] eqn:Hj; [|discriminate].
  destruct (get_prop data field) as [d|] eqn:Hd; [|discriminate].
  intros H. exists r, data, d.
  split; [reflexivity|]. split; [exact Hok|].
  split; [exact Hj|]. split; [exact Hd|].
  revert H. destruct d; try discriminate;
    match goal with
    | |- context [chain ?d] =>
        destruct (chain d) as [l0|]; [|discriminate];
        intros H; inversion H; subst; reflexivity
    end.
Qed.

Lemma dispatched p a :
  adapter_for p = Some a ->
  forall net apiKey l,
    fetchModelsFromProvider net p apiKey = Normal (Some l) ->
    toLowerCase p = p -> a net apiKey = Normal (Some l).
Proof.
  intros Ha net apiKey l H Hp. apply fetchModels_result in H as (a' & Ha' & H).
  rewrite Hp in Ha'. congruence.
Qed.

Lemma fetched_from net p apiKey l :
  fetchModelsFromProvider net p apiKey = Normal (Some l) ->
  fetchModelsFromProvider net (toLowerCase p) apiKey = Normal (Some l).
Proof. unfold fetchModelsFromProvider. now rewrite toLowerCase_idem. Qed.

(** X11.  Whatever the OpenAI adapter returns is a list of strings, and
    each of them passes the adapter's test: lower-cased, it starts with
    [gpt-] and contains none of [instruct], [vision], [embedding]. *)
Theorem openai_returns_chat_models net p apiKey l :
  toLowerCase p = "openai" ->
  fetchModelsFromProvider net p apiKey = Normal (Some l) ->
  forall x, In x l -> exists s, x = JStr s /\ chat_model s = true.
Proof.
  intros Hp H x Hx. apply fetched_from in H. rewrite Hp in H.
  apply (dispatched "openai" fetchOpenAIModels eq_refl) in H; [|reflexivity].
  apply listing_success in H as (r & data & d & _ & _ & _ & _ & H).
  unbind.
  destruct (call_filter d openai_keep) as [kept|] eqn:F; [|discriminate].
  destruct (mapM id_of kept) as [ids|] eqn:M; [|discriminate].
  apply array_sort_perm in H.
  apply Permutation_sym in H. apply (Permutation_in _ H) in Hx.
  destruct (mapM_In _ _ _ M x Hx) as [m [Hm Hid]].
  destruct d; try discriminate F. cbn in F.
  destruct (filterM_In _ _ _ F m Hm) as [_ Hk].
  unfold openai_keep, id_of in *. unbind. rewrite Hid in Hk.
  destruct x; cbn [call_toLowerCase TypeError] in Hk; try discriminate Hk.
  eexists. split; [reflexivity|]. unfold chat_model. now injection Hk.
Qed.

Lemma openai_returns_chat_models_witness :
  toLowerCase "OpenAI" = "openai" /\
  fetchModelsFromProvider (answering openai_body) "OpenAI" "k"
    = Normal (Some [JStr "gpt-3.5-turbo"; JStr "gpt-4"; JStr "gpt-4o"]) /\
  forall x, In x [JStr "gpt-3.5-turbo"; JStr "gpt-4"; JStr "gpt-4o"] ->
            exists s, x = JStr s /\ chat_model s = true.
Proof.
  assert (E : fetchModelsFromProvider (answering openai_body) "OpenAI" "k"
              = Normal (Some [JStr "gpt-3.5-turbo"; JStr "gpt-4"; JStr "gpt-4o"]))
    by (vm_compute; reflexivity).
  split; [reflexivity|]. split; [exact E|].
  exact (openai_returns_chat_models (answering openai_body) "OpenAI" "k" _
           eq_refl E).
Defined.

Lemma without_kept w ids kept s :
  filterM (without w) ids = Normal kept -> In (JStr s) kept ->
  includes s w = false.
Proof.
  intros F Hs. destruct (filterM_In _ _ _ F _ Hs) as [_ Hk].
  unfold without in Hk. unbind. cbn in Hk.
  inversion Hk. now apply negb_true_iff.
Qed.

(** X12.  The Groq adapter never returns a string that contains
    [embedding], and the Mistral and Fireworks adapters never return one
    that contains [embed]. *)
Theorem embedding_models_filtered net p apiKey l w :
  excluded_word (toLowerCase p) = Some w ->
  fetchModelsFromProvider net p apiKey = Normal (Some l) ->
  forall s, In (JStr s) l -> includes s w = false.
Proof.
  intros Hw H s Hs. apply fetched_from in H. unfold excluded_word in Hw.
  repeat match type of Hw with
  | context [String.eqb (toLowerCase p) ?n] =>
      destruct (String.eqb_spec (toLowerCase p) n) as [E|_]
  end; try discriminate Hw; inversion Hw; subst w; clear Hw; rewrite E in H.
  - apply (dispatched "groq" fetchGroqModels eq_refl) in H; [|reflexivity].
    apply listing_success in H as (r & data & d & _ & _ & _ & _ & H). unbind.
    destruct (call_map d id_of) as [ids|]; [|discriminate].
    destruct (filterM (without "embedding") ids) as [kept|] eqn:F; [|discriminate].
    apply array_sort_perm, Permutation_sym in H.
    apply (Permutation_in _ H) in Hs. eauto using without_kept.
  - apply (dispatched "mistral" fetchMistralModels eq_refl) in H; [|reflexivity].
    apply listing_success in H as (r & data & d & _ & _ & _ & _ & H). unbind.
    destruct (call_map d id_of) as [ids|]; [|discriminate].
    destruct (filterM (without "embed") ids) as [kept|] eqn:F; [|discriminate].
    apply array_sort_perm, Permutation_sym in H.
    apply (Permutation_in _ H) in Hs. eauto using without_kept.
  - apply (dispatched "fireworks" fetchFireworksModels eq_refl) in H; [|reflexivity].
    apply listing_success in H as (r & data & d & _ & _ & _ & _ & H). unbind.
    destruct (call_map d id_of) as [ids|]; [|discriminate].
    destruct (filterM (without "embed") ids) as [kept|] eqn:F; [|discriminate].
    apply array_sort_perm, Permutation_sym in H.
    apply (Permutation_in _ H) in Hs. eauto using without_kept.
Qed.

Lemma embedding_models_filtered_witness :
  excluded_word (toLowerCase "Mistral") = Some "embed" /\
  fetchModelsFromProvider
    (answering (listing_of [JStr "mistral-small"; JStr "mistral-embed";
                            JStr "codestral"]))
    "Mistral" "k"
    = Normal (Some [JStr "codestral"; JStr "mistral-small"]) /\
  forall s, In (JStr s) [JStr "codestral"; JStr "mistral-small"] ->
            includes s "embed" = false.
Proof.
  assert (E : fetchModelsFromProvider
                (answering (listing_of [JStr "mistral-small"; JStr "mistral-embed";
                                        JStr "codestral"]))
                "Mistral" "k"
              = Normal (Some [JStr "codestral"; JStr "mistral-small"]))
    by (vm_compute; reflexivity).
  split; [reflexivity|]. split; [exact E|].
  exact (embedding_models_filtered _ "Mistral" "k" _ "embed" eq_refl E).
Defined.

(** X13.  For xAI and Perplexity the list returned consists of the [id]
    members of the entries of the listing, reordered: no entry is
    dropped and none is added. *)
Theorem unfiltered_listing_is_complete net p apiKey l :
  toLowerCase p = "xai" \/ toLowerCase p = "perplexity" ->
  fetchModelsFromProvider net p apiKey = Normal (Some l) ->
  exists label url authorization r data items ids,
    endpoint (toLowerCase p) apiKey = Some (label, url, authorization) /\
    net url authorization = Normal r /\
    json r = Normal data /\
    get_prop data "data" = Normal (JArr items) /\
    mapM id_of items = Normal ids /\
    Permutation ids l.
Proof.
  intros Hp H. apply fetched_from in H.
  destruct Hp as [E|E]; rewrite E in H |- *.
  - apply (dispatched "xai" fetchXaiModels eq_refl) in H; [|reflexivity].
    apply listing_success in H as (r & data & d & Hn & _ & Hj & Hd & H). unbind.
    destruct (call_map d id_of) as [ids|] eqn:M; [|discriminate].
    destruct d; try discriminate M. cbn in M.
    apply array_sort_perm in H.
    eexists _, _, _, r, data, items, ids. repeat split; eauto.
  - apply (dispatched "perplexity" fetchPerplexityModels eq_refl) in H;
      [|reflexivity].
    apply listing_success in H as (r & data & d & Hn & _ & Hj & Hd & H). unbind.
    destruct (call_map d id_of) as [ids|] eqn:M; [|discriminate].
    destruct d; try discriminate M. cbn in M.
    apply array_sort_perm in H.
    eexists _, _, _, r, data, items, ids. repeat split; eauto.
Qed.

Lemma unfiltered_listing_is_complete_witness :
  (toLowerCase "xAI" = "xai" \/ toLowerCase "xAI" = "perplexity") /\
  fetchModelsFromProvider
    (answering (listing_of [JStr "grok-beta"; JStr "grok-2-1212"])) "xAI" "k"
    = Normal (Some [JStr "grok-2-1212"; JStr "grok-beta"]) /\
  exists label url authorization r data items ids,
    endpoint (toLowerCase "xAI") "k" = Some (label, url, authorization) /\
    answering (listing_of [JStr "grok-beta"; JStr "grok-2-1212"]) url authorization
      = Normal r /\
    json r = Normal data /\
    get_prop data "data" = Normal (JArr items) /\
    mapM id_of items = Normal ids /\
    Permutation ids [JStr "grok-2-1212"; JStr "grok-beta"].
Proof.
  assert (P : toLowerCase "xAI" = "xai" \/ toLowerCase "xAI" = "perplexity")
    by (left; reflexivity).
  assert (E : fetchModelsFromProvider
                (answering (listing_of [JStr "grok-beta"; JStr "grok-2-1212"]))
                "xAI" "k"
              = Normal (Some [JStr "grok-2-1212"; JStr "grok-beta"]))
    by (vm_compute; reflexivity).
  split; [exact P|]. split; [exact E|].
  exact (unfiltered_listing_is_complete _ "xAI" "k" _ P E).
Defined.

End FetcherMoreProps.

(** ** The template engine, continued *)

Module TemplateMoreProps.
Import JS Utils Generator TemplateSpec RegistryMoreSpec TemplateMoreSpec.
Import RegistryMoreProps TemplateProps.

#[local] Arguments String.append !s1 s2 : simpl nomatch.
#[local] Arguments Ascii.eqb !a !b.

(** *** Content without placeholders *)

Lemma scan_absent key v s : forall pre,
  includes s (token key) = false ->
  scan (find_token key v) 0 pre s = s.
Proof.
  induction s as [|c r IH]; intros pre H; [reflexivity|].
  cbn [includes] in H. apply orb_false_iff in H as [Hp Hr].
  cbn [scan]. unfold find_token at 1. rewrite Hp. f_equal. now apply IH.
Qed.

Lemma processEntries_absent es content :
  no_placeholder es content = true -> processEntries es content = content.
Proof.
  unfold processEntries, no_placeholder.
  induction es as [|[k v] es IH]; cbn [fold_left forallb fst snd]; [reflexivity|].
  rewrite andb_true_iff, negb_true_iff. intros [Hk He].
  unfold replaceAll. rewrite scan_absent by exact Hk. now apply IH.
Qed.

(** X14.  Content in which no placeholder of the supplied variables
    occurs is returned as it is, whatever the values are (braces and
    dollar signs included). *)
Theorem render_without_placeholders content vars :
  no_placeholder (entries vars) content = true ->
  processTemplate content vars = content.
Proof. apply processEntries_absent. Qed.

Lemma render_without_placeholders_witness :
  no_placeholder (entries (test_vars "a$&b{{MODEL}}"))
                 "const x = {{UNKNOWN}}; // {MODEL} $& {{ MODEL }}" = true /\
  processTemplate "const x = {{UNKNOWN}}; // {MODEL} $& {{ MODEL }}"
                  (test_vars "a$&b{{MODEL}}")
  = "const x = {{UNKNOWN}}; // {MODEL} $& {{ MODEL }}".
Proof.
  split; [reflexivity|].
  apply (render_without_placeholders
           "const x = {{UNKNOWN}}; // {MODEL} $& {{ MODEL }}"
           (test_vars "a$&b{{MODEL}}")).
  reflexivity.
Defined.

(** *** Rendering twice *)

Lemma unparse_subst_all look segs :
  unparse (subst_all look segs) = render look segs.
Proof.
  induction segs as [|[c|n] r IH]; cbn; [reflexivity|congruence|].
  destruct (look n); cbn.
  - now rewrite unparse_lits, IH.
  - now rewrite IH.
Qed.

Lemma render_subst_all look segs :
  render look (subst_all look segs) = render look segs.
Proof.
  induction segs as [|[c|n] r IH]; cbn; [reflexivity|congruence|].
  destruct (look n) eqn:L; cbn.
  - now rewrite render_lits, IH.
  - now rewrite L, IH.
Qed.

Lemma opens_subst_all look segs :
  opens segs = false -> opens (subst_all look segs) = false.
Proof. destruct segs as [|[c|n] r]; cbn; auto; discriminate. Qed.

Lemma well_formed_subst_all look segs :
  (forall n v, look n = Some v -> clean v = true) ->
  well_formed segs = true -> well_formed (subst_all look segs) = true.
Proof.
  intros Hv. induction segs as [|[c|n] r IH]; cbn; [reflexivity| |].
  - rewrite !andb_true_iff, !negb_true_iff, !andb_false_iff.
    intros [[Hc|Hc] Hr]; (split; [|auto]); [now left|right].
    now apply opens_subst_all.
  - rewrite andb_true_iff. intros [Hn Hr].
    destruct (look n) as [v|] eqn:L; cbn.
    + apply well_formed_lits; [|auto].
      apply brace_free_no_open, clean_brace_free. eauto.
    + rewrite Hn. cbn. auto.
Qed.

Lemma lookup_clean es n v :
  clean_entries es = true -> lookup (strings es) n = Some v -> clean v = true.
Proof.
  induction es as [|[k w] es IH]; cbn; [discriminate|].
  rewrite !andb_true_iff. intros [[_ Hw] He].
  destruct (String.eqb k n); [|auto].
  intros [= <-]. now destruct w.
Qed.

(** X15.  For a well-formed template and values without braces and
    dollar signs, rendering is idempotent: rendering the output again,
    with the same variables, changes nothing. *)
Theorem render_twice segs vars :
  clean_entries (entries vars) = true ->
  well_formed segs = true ->
  processTemplate (processTemplate (unparse segs) vars) vars
  = processTemplate (unparse segs) vars.
Proof.
  intros Hc Hw. unfold processTemplate.
  rewrite (processEntries_unparse _ segs) by assumption.
  rewrite <- unparse_subst_all.
  rewrite processEntries_unparse;
    [now rewrite render_subst_all, unparse_subst_all | exact Hc |].
  apply well_formed_subst_all; [|exact Hw].
  intros n v. now apply lookup_clean.
Qed.

Lemma render_twice_witness :
  clean_entries (entries (test_vars "test-project")) = true /\
  well_formed greeting = true /\
  processTemplate (processTemplate (unparse greeting) (test_vars "test-project"))
                  (test_vars "test-project")
  = processTemplate (unparse greeting) (test_vars "test-project").
Proof.
  split; [reflexivity|]. split; [reflexivity|].
  apply (render_twice greeting (test_vars "test-project")); reflexivity.
Defined.

(** *** The variables of clean options *)

Lemma clean_app a b : clean (a +:+ b) = clean a && clean b.
Proof.
  induction a as [|c r IH]; [reflexivity|].
  cbn. rewrite IH. now rewrite !andb_assoc.
Qed.

Lemma clean_lower_unit c :
  (negb (Ascii.eqb (lower_unit c) "{") && negb (Ascii.eqb (lower_unit c) "}")
   && negb (Ascii.eqb (lower_unit c) "$"))
  = (negb (Ascii.eqb c "{") && negb (Ascii.eqb c "}") && negb (Ascii.eqb c "$")).
Proof. destruct c as [[] [] [] [] [] [] [] []]; reflexivity. Qed.

Lemma clean_upper_unit c :
  (negb (Ascii.eqb (upper_unit c) "{") && negb (Ascii.eqb (upper_unit c) "}")
   && negb (Ascii.eqb (upper_unit c) "$"))
  = (negb (Ascii.eqb c "{") && negb (Ascii.eqb c "}") && negb (Ascii.eqb c "$")).
Proof. destruct c as [[] [] [] [] [] [] [] []]; reflexivity. Qed.

Lemma clean_toLowerCase s : clean (toLowerCase s) = clean s.
Proof.
  induction s as [|c r IH]; [reflexivity|].
  cbn [toLowerCase map_units clean]. fold (toLowerCase r).
  now rewrite clean_lower_unit, IH.
Qed.

Lemma clean_toUpperCase s : clean (toUpperCase s) = clean s.
Proof.
  induction s as [|c r IH]; [reflexivity|].
  cbn [toUpperCase map_units clean]. fold (toUpperCase r).
  now rewrite clean_upper_unit, IH.
Qed.

Lemma clean_answer (o : obj) x (fallback : string) :
  forallb (fun kv => clean (snd kv) && nonempty (snd kv)) o = true ->
  plain x = true -> clean fallback = true ->
  clean_value (js_or (get o (toLowerCase x)) (VStr fallback)) = true.
Proof.
  intros Ho Hp Hf. rewrite get_plain by exact Hp.
  destruct (own o (toLowerCase x)) as [v|] eqn:E; [|exact Hf].
  pose proof (own_forall (fun v => clean v && nonempty v) o _ _ Ho E) as A.
  apply andb_true_iff in A as [A1 A2]. now destruct v.
Qed.

(** X16.  For options whose name, provider, model and credential have no
    brace and no dollar sign (and whose provider does not lower-case to
    [constructor] or [__proto__]), all seven template variables are
    strings without braces and dollar signs; every well-formed template
    is then rendered by replacing each token of a variable by its value
    and leaving the rest as it is. *)
Theorem clean_options_render_exactly o :
  clean_options o = true ->
  clean_entries (entries (getTemplateVariables o)) = true /\
  forall segs, well_formed segs = true ->
    processTemplate (unparse segs) (getTemplateVariables o)
    = render (lookup (strings (entries (getTemplateVariables o)))) segs.
Proof.
  unfold clean_options. rewrite !andb_true_iff.
  intros [[[[Hn Hp] Hm] Hk] Hpl].
  assert (C : clean_entries (entries (getTemplateVariables o)) = true).
  { unfold clean_entries, entries, getTemplateVariables.
    cbn [forallb fst snd PROJECT_NAME PROVIDER MODEL PROVIDER_PACKAGE
         ENV_VAR_NAME API_KEY_PLACEHOLDER FRED_VERSION clean_value].
    rewrite Hn, Hp, Hm.
    unfold getProviderPackageName, getProviderEnvVar.
    rewrite (clean_answer providerMap) , (clean_answer envMap); try assumption;
      try reflexivity.
    - destruct (credential o); [rewrite Hk|]; reflexivity.
    - rewrite clean_app, clean_toUpperCase, Hp. reflexivity.
    - rewrite clean_app, clean_toLowerCase, Hp. reflexivity. }
  split; [exact C|]. intros segs Hw. now apply processEntries_unparse.
Qed.

Lemma clean_options_render_exactly_witness :
  clean_options MaterializerSpec.sample_options = true /\
  clean_entries (entries (getTemplateVariables MaterializerSpec.sample_options))
    = true /\
  forall segs, well_formed segs = true ->
    processTemplate (unparse segs)
                    (getTemplateVariables MaterializerSpec.sample_options)
    = render (lookup (strings (entries (getTemplateVariables
                                          MaterializerSpec.sample_options)))) segs.
Proof.
  split; [reflexivity|].
  apply (clean_options_render_exactly MaterializerSpec.sample_options).
  reflexivity.
Defined.

End TemplateMoreProps.

(** ** The project materializer, continued *)

Module MaterializerMoreProps.
Import JS Utils Generator MaterializerSpec MaterializerMoreSpec MaterializerProps.

#[local] Arguments String.append !s1 s2 : simpl nomatch.
#[local] Set Warnings "-clear-no-such-hyp".


(** *** Writing one file *)

Lemma existsSync_dir fs p : p ∈ dirs fs -> existsSync fs p = true.
Proof.
  intros H. unfold existsSync. rewrite (bool_decide_eq_true_2 _ H).
  apply orb_true_r.
Qed.


(** *** Directories *)

Lemma list_of_app a b :
  list_ascii_of_string (a +:+ b) = list_ascii_of_string a ++ list_ascii_of_string b.
Proof. induction a as [|c r IH]; cbn; congruence. Qed.

Lemma after_slash_app l r :
  forallb (fun c => negb (Ascii.eqb c "/")) l = true ->
  after_slash (l ++ "/"%char :: r) = Some r.
Proof.
  induction l as [|c l IH]; cbn; [reflexivity|].
  rewrite andb_true_iff, negb_true_iff. intros [-> H]. auto.
Qed.

Lemma no_slash_list s :
  no_slash s = true ->
  forallb (fun c => negb (Ascii.eqb c "/")) (rev (list_ascii_of_string s)) = true.
Proof.
  intros H. apply forallb_forall. intros c Hc. apply in_rev in Hc.
  induction s as [|a r IH]; cbn in *; [contradiction|].
  apply andb_true_iff in H as [Ha Hr].
  destruct Hc as [<-|Hc]; auto.
Qed.

(** The directory of [a/b], for a last component [b]. *)
Lemma dirname_join a b : no_slash b = true -> dirname (join a b) = a.
Proof.
  intros Hb. unfold dirname, join.
  rewrite !list_of_app. cbn [list_ascii_of_string app].
  rewrite rev_app_distr. cbn [rev]. rewrite <- List.app_assoc. cbn [app].
  rewrite after_slash_app by now apply no_slash_list.
  now rewrite rev_involutive, string_of_list_ascii_of_string.
Qed.

Lemma join_assoc d a b : join (join d a) b = join d (a +:+ "/" +:+ b).
Proof. unfold join. now rewrite !TemplateProps.app_assoc. Qed.

(** Every name that a run can write lies at the top of the project or in
    one of the three directories made at the start. *)
Lemma dirname_of_name d f :
  In f all_names ->
  dirname (join d f) = d \/
  dirname (join d f) = join d "src" \/
  ((f = "src/tools/example-tool.ts" \/ f = "src/agents/default-agent.ts"
    \/ f = "src/examples/basic.ts") /\
   (dirname (join d f) = join (join d "src") "tools" \/
    dirname (join d f) = join (join d "src") "agents" \/
    dirname (join d f) = join (join d "src") "examples")).
Proof.
  intros H. cbn in H.
  repeat (destruct H as [<-|H]);
    try contradiction;
    try (left; apply dirname_join; reflexivity);
    try (right; left;
         match goal with
         | |- dirname (join d ?f) = _ =>
             let b := eval vm_compute in (JS.drop 4 f) in
             change (join d f) with (join d ("src" +:+ "/" +:+ b));
             rewrite <- join_assoc; apply dirname_join; reflexivity
         end).
  - right. right. split; [auto|]. left.
    change (join d "src/tools/example-tool.ts")
      with (join d ("src" +:+ "/" +:+ ("tools" +:+ "/" +:+ "example-tool.ts"))).
    rewrite <- !join_assoc. apply dirname_join. reflexivity.
  - right. right. split; [auto|]. right. left.
    change (join d "src/agents/default-agent.ts")
      with (join d ("src" +:+ "/" +:+ ("agents" +:+ "/" +:+ "default-agent.ts"))).
    rewrite <- !join_assoc. apply dirname_join. reflexivity.
  - right. right. split; [auto|]. right. right.
    change (join d "src/examples/basic.ts")
      with (join d ("src" +:+ "/" +:+ ("examples" +:+ "/" +:+ "basic.ts"))).
    rewrite <- !join_assoc. apply dirname_join. reflexivity.
Qed.

Lemma dirs_writeFileToDest p c fs :
  dirname p ∈ dirs fs -> dirs (writeFileToDest p c fs) = dirs fs.
Proof.
  intros H. unfold writeFileToDest. now rewrite (existsSync_dir _ _ H).
Qed.

Lemma dirs_copy_all pkg d vars todo : forall fs,
  (forall t f, In (t, f) todo -> dirname (join d f) ∈ dirs fs) ->
  dirs (fst (copy_all pkg d vars todo fs)) = dirs fs.
Proof.
  induction todo as [|[t f] todo IH]; intros fs H; cbn; [reflexivity|].
  unfold copyTemplateFile.
  destruct (readTemplateFile pkg t) as [content|]; [|reflexivity].
  assert (E : dirs (writeFileToDest (join d f) (processTemplate content vars) fs)
              = dirs fs).
  { apply dirs_writeFileToDest, (H t f). now left. }
  rewrite IH; [exact E|].
  intros t' f' H'. rewrite E. apply (H t' f'). now right.
Qed.

Lemma dirs_prepared d o fs :
  dirs (prepared d o fs) = skeleton d (includeExamples o) ∪ dirs fs.
Proof.
  unfold prepared, skeleton. destruct (includeExamples o); cbn; set_solver.
Qed.

Lemma manifest_all_names o t f : In (t, f) (manifest o) -> In f all_names.
Proof.
  unfold manifest, all_names. intros H. apply in_or_app. left.
  apply in_map_iff. exists (t, f). split; [reflexivity|].
  destruct (includeExamples o); [exact H|].
  rewrite List.app_nil_r in H. apply in_or_app. now left.
Qed.

Lemma manifest_dir_exists d o fs t f :
  In (t, f) (manifest o) ->
  dirname (join d f) ∈ dirs (prepared d o fs).
Proof.
  intros H. rewrite dirs_prepared. unfold skeleton.
  destruct (dirname_of_name d f (manifest_all_names o t f H))
    as [E | [E | [Hf E]]]; rewrite ?E; [set_solver | set_solver |].
  assert (X : includeExamples o = true).
  { unfold manifest in H. destruct (includeExamples o); [reflexivity|].
    rewrite List.app_nil_r in H. cbn in H.
    destruct Hf as [-> | [-> | ->]];
      repeat (destruct H as [H|H]; [discriminate H|]); contradiction. }
  rewrite X. destruct E as [-> | [-> | ->]]; set_solver.
Qed.

Lemma dirs_generateProject pkg d o fs :
  dirs (fst (generateProject pkg d o fs))
  = skeleton d (includeExamples o) ∪ dirs fs.
Proof.
  unfold generateProject. fold (prepared d o fs).
  pose proof (dirs_copy_all pkg d (getTemplateVariables o) (manifest o)
                (prepared d o fs)
                (fun t f => manifest_dir_exists d o fs t f)) as C.
  destruct (copy_all pkg d (getTemplateVariables o) (manifest o) (prepared d o fs))
    as [fs1 [[]|e]]; cbn [fst] in C |- *.
  - destruct (credential o) as [key|]; cbn [fst].
    + rewrite dirs_writeFileToDest, C; [apply dirs_prepared|].
      rewrite C, dirs_prepared, dirname_join by reflexivity.
      unfold skeleton. set_solver.
    + rewrite C. apply dirs_prepared.
  - rewrite C. apply dirs_prepared.
Qed.

Lemma examples_not_in_skeleton d :
  join (join d "src") "examples" ∉ skeleton d false.
Proof.
  unfold skeleton, join. intros H.
  assert (L : forall a b : string, a = b -> String.length a = String.length b)
    by (intros; now subst).
  apply elem_of_union in H as [H|H]; [|set_solver].
  repeat (apply elem_of_union in H as [H|H]);
    apply elem_of_singleton in H; apply L in H;
    rewrite !TemplateProps.length_app in H; cbn in H; lia.
Qed.

(** X19.  Whatever the outcome of a run, the project root, [src],
    [src/tools] and [src/agents], and with the examples flag
    [src/examples], exist after it; every manifest file goes into one of
    these directories, which were made before the first file was written;
    and without the flag [src/examples] is not made. *)
Theorem generateProject_directories pkg d o fs :
  skeleton d (includeExamples o) ⊆ dirs (fst (generateProject pkg d o fs)) /\
  (forall t f, In (t, f) (manifest o) ->
     dirname (join d f) ∈ skeleton d (includeExamples o)) /\
  (includeExamples o = false ->
   join (join d "src") "examples" ∈ dirs (fst (generateProject pkg d o fs)) ->
   join (join d "src") "examples" ∈ dirs fs).
Proof.
  rewrite dirs_generateProject. split; [set_solver|]. split.
  - intros t f H. pose proof (manifest_dir_exists d o empty_fs t f H) as M.
    rewrite dirs_prepared in M. cbn [dirs empty_fs] in M. set_solver.
  - intros E H. rewrite E in H. pose proof (examples_not_in_skeleton d).
    set_solver.
Qed.

(** *** What a run can touch *)

Lemma copy_all_writes pkg d vars todo : forall fs,
  exists done rest,
    todo = done ++ rest /\
    files (fst (copy_all pkg d vars todo fs))
    = write_all (outputs pkg d vars done) (files fs) /\
    (rest = [] <-> snd (copy_all pkg d vars todo fs) = Normal tt).
Proof.
  induction todo as [|[t f] todo IH]; intros fs; cbn.
  - exists [], []. repeat split; auto.
  - unfold copyTemplateFile, rendered.
    destruct (readTemplateFile pkg t) as [content|e] eqn:R.
    + destruct (IH (writeFileToDest (join d f) (processTemplate content vars) fs))
        as (done & rest & -> & F & S).
      exists ((t, f) :: done), rest. split; [reflexivity|]. split; [|exact S].
      rewrite F, files_writeFileToDest. cbn. unfold rendered. now rewrite R.
    + exists [], ((t, f) :: todo). repeat split; auto; discriminate.
Qed.

Lemma changed_by_writes ws (m : gmap string string) p :
  write_all ws m !! p <> m !! p -> In p (List.map fst ws).
Proof.
  intros H. destruct (in_dec string_dec p (List.map fst ws)) as [Hin|Hout];
    [exact Hin|].
  exfalso. apply H. now apply write_all_other.
Qed.

(** X20.  Whatever the outcome of a run, a path whose content differs
    after it is one of the thirteen manifest names or [.env], directly
    under the destination: [generateProject] never touches another
    file. *)
Theorem generateProject_touches_only_its_files pkg d o fs p :
  files (fst (generateProject pkg d o fs)) !! p <> files fs !! p ->
  exists f, In f all_names /\ p = join d f.
Proof.
  unfold generateProject. fold (prepared d o fs).
  destruct (copy_all_writes pkg d (getTemplateVariables o) (manifest o)
              (prepared d o fs)) as (done & rest & Hm & F & _).
  rewrite files_prepared in F.
  assert (K : forall q, In q (List.map fst (outputs pkg d (getTemplateVariables o) done)) ->
                        exists f, In f all_names /\ q = join d f).
  { intros q Hq. rewrite outputs_keys, List.map_map in Hq.
    apply in_map_iff in Hq as [[t f] [<- Hin]]. exists f. split; [|reflexivity].
    apply (manifest_all_names o t). rewrite Hm. apply in_or_app. now left. }
  destruct (copy_all pkg d (getTemplateVariables o) (manifest o) (prepared d o fs))
    as [fs1 [[]|e]]; cbn [fst] in F |- *.
  - destruct (credential o) as [key|]; cbn [fst].
    + rewrite files_writeFileToDest, F. intros H.
      destruct (String.eqb_spec (join d ".env") p) as [<-|Hne].
      * exists ".env". split; [|reflexivity]. unfold all_names.
        apply in_or_app. right. now left.
      * rewrite lookup_insert_ne in H by exact Hne.
        apply changed_by_writes in H. auto.
    + rewrite F. intros H. apply changed_by_writes in H. auto.
  - rewrite F. intros H. apply changed_by_writes in H. auto.
Qed.

Lemma generateProject_touches_only_its_files_witness :
  files (fst (generateProject (sample_package (core_files ++ example_files))
                "p1" sample_options empty_fs)) !! "p1/README.md"
    <> files empty_fs !! "p1/README.md" /\
  exists f, In f all_names /\ "p1/README.md" = join "p1" f.
Proof.
  assert (H : files (fst (generateProject
                            (sample_package (core_files ++ example_files))
                            "p1" sample_options empty_fs)) !! "p1/README.md"
              <> files empty_fs !! "p1/README.md")
    by (vm_compute; discriminate).
  split; [exact H|].
  exact (generateProject_touches_only_its_files _ "p1" sample_options empty_fs
           "p1/README.md" H).
Defined.

(** *** Running again *)

(** X21.  A run that finds its templates can be repeated: the second run
    over the tree left by the first succeeds and leaves the same files
    and the same directories. *)
Theorem generateProject_again pkg d o fs :
  all_readable pkg (manifest o) = true ->
  exists fs1 fs2,
    generateProject pkg d o fs = (fs1, Normal tt) /\
    generateProject pkg d o fs1 = (fs2, Normal tt) /\
    files fs2 = files fs1 /\ dirs fs2 = dirs fs1.
Proof.
  intros Hr.
  destruct (generateProject_ok pkg d o fs Hr) as (fs1 & E1 & F1).
  destruct (generateProject_ok pkg d o fs1 Hr) as (fs2 & E2 & F2).
  exists fs1, fs2. split; [exact E1|]. split; [exact E2|]. split.
  - apply map_eq. intros p.
    rewrite (run_lookup _ _ _ _ _ p F2), (run_lookup _ _ _ _ _ p F1).
    now destruct (find_write (written pkg d o) p).
  - pose proof (dirs_generateProject pkg d o fs) as D1.
    pose proof (dirs_generateProject pkg d o fs1) as D2.
    rewrite E1 in D1. rewrite E2 in D2. cbn [fst] in D1, D2.
    rewrite D2, D1. set_solver.
Qed.

Lemma generateProject_again_witness :
  all_readable (sample_package (core_files ++ example_files))
               (manifest sample_options) = true /\
  exists fs1 fs2,
    generateProject (sample_package (core_files ++ example_files)) "p1"
                    sample_options empty_fs = (fs1, Normal tt) /\
    generateProject (sample_package (core_files ++ example_files)) "p1"
                    sample_options fs1 = (fs2, Normal tt) /\
    files fs2 = files fs1 /\ dirs fs2 = dirs fs1.
Proof.
  split; [vm_compute; reflexivity|].
  apply (generateProject_again (sample_package (core_files ++ example_files))
           "p1" sample_options empty_fs).
  vm_compute. reflexivity.
Defined.

End MaterializerMoreProps.

(** ** The command line *)

Module CliProps.
Import JS Utils Generator ProjectName Cli MaterializerSpec CliSpec.







End CliProps.
